(** * GPU memory estimation of the llm package (memory.go)

    A shallow embedding of [EstimateGPULayers] and [PredictServerFit] and
    the properties of the layer placement they compute.

    Conventions.
    - Go's [uint64] is a [Z] in [0, 2^64); every addition and
      multiplication of the source is followed by its reduction modulo
      2^64 ([+u], [*u]).  Go's [int] is taken to be 64 bits wide ([+i]).
    - A run-time panic of the source (index out of range, integer division
      by zero) is the result [None].
    - Diagnostics ([slog]) and the two log-only string lists of the
      estimate (built with [format.HumanBytes2]) are left out. *)

From stdpp Require Import base decidable option numbers list strings gmap pretty relations.

Local Open Scope Z_scope.

(** ** Machine integers *)

Definition wrap64 (z : Z) : Z := z mod 2 ^ 64.

(** [int(x)] for a [uint64] x, and the reduction of an [int] result *)
Definition to_int (z : Z) : Z := if decide (z < 2 ^ 63) then z else z - 2 ^ 64.
Definition wrap_int (z : Z) : Z := to_int (wrap64 z).

Definition uadd (a b : Z) : Z := wrap64 (a + b).
Definition umul (a b : Z) : Z := wrap64 (a * b).
Definition iadd (a b : Z) : Z := wrap_int (a + b).

(** unsigned division panics on a zero divisor *)
Definition udiv (a b : Z) : option Z :=
  if decide (b = 0) then None else Some (a / b).

Infix "+u" := uadd (at level 50, left associativity).
Infix "*u" := umul (at level 40, left associativity).
Infix "+i" := iadd (at level 50, left associativity).

Definition is_u64 (z : Z) : Prop := 0 ≤ z < 2 ^ 64.

(** ** Data model *)

(** gpu.GpuInfo, the fields the estimator reads *)
Record GpuInfo := {
  Library : string;
  FreeMemory : Z;
  MinimumMemory : Z;
}.

(** The model description: [TensorLayers] is [ggml.Tensors().Layers()] with
    every layer replaced by its [size()]; the other fields are the values of
    the [ggml.KV()] accessors and the [ggml.GraphSize] method. *)
Record GGML := {
  TensorLayers : gmap string Z;
  BlockCount : Z;
  EmbeddingHeadCountK : Z;
  EmbeddingHeadCountV : Z;
  HeadCountKV : Z;
  GQA : Z;
  GraphSize : Z → Z → Z * Z;
}.

(** api.Options, the fields the estimator reads *)
Record Options := {
  NumCtx : Z;
  NumBatch : Z;
  NumGPU : Z;
}.

Record MemoryEstimate := {
  Layers : Z;
  Graph : Z;
  VRAMSize : Z;
  TotalSize : Z;
  TensorSplit : string;
  GPUSizes : list Z;
  inferenceLibrary : string;
  layersRequested : Z;
  layersModel : Z;
  est_kv : Z;
  est_memoryWeights : Z;
  est_memoryLayerOutput : Z;
  est_graphFullOffload : Z;
  est_graphPartialOffload : Z;
}.

(** The values fixed before placement starts (lines 97-150). *)
Record Sizes := {
  numCtx : Z;
  projectorSize : Z;
  kv : Z;
  layerSize0 : Z;
  graphPartialOffload : Z;
  graphFullOffload : Z;
  memoryLayerOutput : Z;
}.

(** [gs]: an eligible device, its index in the group and the device *)
Record gs := {
  gs_i : nat;
  gs_g : GpuInfo;
}.

#[global] Instance GpuInfo_eq_dec : EqDecision GpuInfo.
Proof. solve_decision. Defined.

#[global] Instance gs_eq_dec : EqDecision gs.
Proof. solve_decision. Defined.

(** The variables the placement loops update. *)
Record State := {
  layerSize : Z;
  memoryWeights : Z;
  layerCount : Z;
  layerCounts : list Z;
  gpuAllocations : list Z;
  gpusWithSpace : list gs;
}.

(** a slice indexed by an [int]: a negative index panics as well *)
Definition index {A} (l : list A) (z : Z) : option A :=
  if decide (0 ≤ z) then l !! Z.to_nat z else None.

(** [fmt.Sprintf("blk.%d", i)] *)
Definition blk (i : nat) : string := "blk." +:+ pretty i.

Section Estimator.

(** [projectorMemoryRequirements] is defined in another file of the
    package; the estimator only adds up its results. *)
Variable projectorMemoryRequirements : string → Z.

Variable ggml : GGML.
Variable opts : Options.

(** lines 103-108 *)
Fixpoint projectorLoop (projectors : list string) (acc : Z * Z) : Z * Z :=
  match projectors with
  | [] => acc
  | projector :: rest =>
      projectorLoop rest
        (acc.1 +u projectorMemoryRequirements projector, Z.max acc.2 2048)
  end.

(** lines 97-150 *)
Definition sizes (gpus : list GpuInfo) (projectors : list string) : option Sizes :=
  gpu0 ← gpus !! 0%nat;
  let '(projectorSize, numCtx) := projectorLoop projectors (0, NumCtx opts) in
  let layerSize := default 0 (TensorLayers ggml !! "blk.0") in
  let kv := 2 *u wrap64 numCtx *u BlockCount ggml
              *u (EmbeddingHeadCountK ggml +u EmbeddingHeadCountV ggml)
              *u HeadCountKV ggml in
  perLayer ← udiv kv (BlockCount ggml);
  let layerSize := layerSize +u perLayer in
  let '(graphPartialOffload, graphFullOffload) :=
    GraphSize ggml (wrap64 numCtx) (wrap64 (Z.min numCtx (NumBatch opts))) in
  let graphPartialOffload :=
    if decide (graphPartialOffload = 0) then (GQA ggml *u kv) / 6
    else graphPartialOffload in
  let graphFullOffload :=
    if decide (graphFullOffload = 0) then graphPartialOffload
    else graphFullOffload in
  let '(graphPartialOffload, graphFullOffload) :=
    if decide (Library gpu0 = "metal") then (graphFullOffload, graphFullOffload)
    else if decide (1 < length gpus)%nat then (graphPartialOffload, graphPartialOffload)
    else (graphPartialOffload, graphFullOffload) in
  let memoryLayerOutput :=
    match TensorLayers ggml !! "output_norm" with
    | Some layer => 0 +u layer
    | None => 0
    end in
  let memoryLayerOutput :=
    match TensorLayers ggml !! "output" with
    | Some layer => memoryLayerOutput +u layer
    | None =>
        match TensorLayers ggml !! "token_embd" with
        | Some layer => memoryLayerOutput +u layer
        | None => memoryLayerOutput
        end
    end in
  Some {| numCtx := numCtx; projectorSize := projectorSize; kv := kv;
          layerSize0 := layerSize;
          graphPartialOffload := graphPartialOffload;
          graphFullOffload := graphFullOffload;
          memoryLayerOutput := memoryLayerOutput |}.

(** *** Placement, for given sizes *)

Variable sz : Sizes.

Definition gpuZeroOverhead : Z := projectorSize sz.

Definition maxGraph : Z := Z.max (graphPartialOffload sz) (graphFullOffload sz).

(** the right-hand side of the test of line 167 *)
Definition threshold (gzo : Z) (g : GpuInfo) (layerSize : Z) : Z :=
  gzo +u maxGraph +u MinimumMemory g +u 2 *u layerSize.

(** lines 161-173; [i] is the index of the head of [rest] in the group *)
Fixpoint filterLoop (i : nat) (rest : list GpuInfo)
    (gpusWithSpace : list gs) (gpuAllocations : list Z) : option (list gs * list Z) :=
  match rest with
  | [] => Some (gpusWithSpace, gpuAllocations)
  | g :: rest' =>
      let gzo := if decide (length gpusWithSpace = 0%nat) then gpuZeroOverhead else 0 in
      if decide (FreeMemory g < threshold gzo g (layerSize0 sz)) then
        filterLoop (S i) rest' gpusWithSpace gpuAllocations
      else
        a ← gpuAllocations !! i;
        filterLoop (S i) rest' (gpusWithSpace ++ [{| gs_i := i; gs_g := g |}])
          (<[i := a +u (MinimumMemory g +u layerSize0 sz)]> gpuAllocations)
  end.

(** lines 175-179 *)
Definition chargeGpuZero (gpusWithSpace : list gs) (gpuAllocations : list Z) : option (list Z) :=
  match gpusWithSpace with
  | [] => Some gpuAllocations
  | g0 :: _ =>
      a ← gpuAllocations !! gs_i g0;
      Some (<[gs_i g0 := a +u gpuZeroOverhead]> gpuAllocations)
  end.

(** lines 152-179: the state in which the block loop starts *)
Definition eligible (gpus : list GpuInfo) : option State :=
  '(gpusWithSpace, gpuAllocations) ←
     filterLoop 0 gpus [] (replicate (length gpus) 0);
  gpuAllocations ← chargeGpuZero gpusWithSpace gpuAllocations;
  Some {| layerSize := layerSize0 sz; memoryWeights := 0; layerCount := 0;
          layerCounts := replicate (length gpus) 0;
          gpuAllocations := gpuAllocations;
          gpusWithSpace := gpusWithSpace |}.

(** lines 200-202 and 223-225: one unit of [size] bytes goes to device [g] *)
Definition place (g : gs) (size : Z) (st : State) : option State :=
  a ← gpuAllocations st !! gs_i g;
  c ← layerCounts st !! gs_i g;
  Some {| layerSize := layerSize st; memoryWeights := memoryWeights st;
          layerCount := layerCount st +i 1;
          layerCounts := <[gs_i g := c +i 1]> (layerCounts st);
          gpuAllocations := <[gs_i g := a +u size]> (gpuAllocations st);
          gpusWithSpace := gpusWithSpace st |}.

(** line 205 *)
Definition dropDevice (k : nat) (st : State) : State :=
  {| layerSize := layerSize st; memoryWeights := memoryWeights st;
     layerCount := layerCount st; layerCounts := layerCounts st;
     gpuAllocations := gpuAllocations st;
     gpusWithSpace := take k (gpusWithSpace st) ++ drop (S k) (gpusWithSpace st) |}.

(** lines 196-207, from the value [j] of the loop counter on *)
Fixpoint placeBlock (j : nat) (i : nat) (st : State) : option State :=
  match j with
  | O => Some st
  | S j' =>
      g ← gpusWithSpace st !! (i mod j)%nat;
      a ← gpuAllocations st !! gs_i g;
      let used := a +u maxGraph in
      if decide (used +u layerSize st < FreeMemory (gs_g g)) then
        place g (layerSize st) st
      else placeBlock j' i (dropDevice (i mod j)%nat st)
  end.

(** lines 184-188 *)
Definition sizeBlock (i : nat) (st : State) : option State :=
  layerSize' ←
    match TensorLayers ggml !! blk i with
    | Some b => perLayer ← udiv (kv sz) (BlockCount ggml); Some (b +u perLayer)
    | None => Some (layerSize st)
    end;
  Some {| layerSize := layerSize'; memoryWeights := memoryWeights st +u layerSize';
          layerCount := layerCount st; layerCounts := layerCounts st;
          gpuAllocations := gpuAllocations st; gpusWithSpace := gpusWithSpace st |}.

(** the body of the loop of lines 182-208 *)
Definition blockStep (i : nat) (st : State) : option State :=
  st ← sizeBlock i st;
  if decide (0 ≤ NumGPU opts ∧ NumGPU opts ≤ layerCount st) then Some st
  else placeBlock (length (gpusWithSpace st)) i st.

Fixpoint blockLoop (blocks : list nat) (st : State) : option State :=
  match blocks with
  | [] => Some st
  | i :: rest => st' ← blockStep i st; blockLoop rest st'
  end.

(** [int(ggml.KV().BlockCount())] *)
Definition blockCount : Z := to_int (BlockCount ggml).

(** [range int(ggml.KV().BlockCount())] *)
Definition blockRange : list nat := seq 0 (Z.to_nat blockCount).

(** lines 209-215: the full-load flag and the overflow of the blocks *)
Definition blocksOverflow (st : State) : bool * Z :=
  if decide (blockCount ≤ layerCount st) then (true, 0)
  else (false,
        Nat.iter (Z.to_nat (blockCount - layerCount st))
          (λ overflow, overflow +u layerSize st) 0).

(** lines 219-228, from the value [j] of the loop counter on *)
Fixpoint placeHead (j : nat) (st : State) : option State :=
  match j with
  | O => Some st
  | S j' =>
      g ← index (gpusWithSpace st) (Z.rem (layerCount st) (Z.of_nat j));
      a ← gpuAllocations st !! gs_i g;
      let used := a +u maxGraph in
      if decide (used +u memoryLayerOutput sz < FreeMemory (gs_g g)) then
        place g (memoryLayerOutput sz) st
      else placeHead j' st
  end.

(** lines 218-234 *)
Definition headStage (st : State) (fullyLoaded : bool) (overflow : Z)
    : option (State * bool * Z) :=
  if decide (0 < memoryLayerOutput sz ∧
             (NumGPU opts < 0 ∨ layerCount st < NumGPU opts)) then
    st ← placeHead (length (gpusWithSpace st)) st;
    if decide (layerCount st < blockCount +i 1) then
      Some (st, false, overflow +u memoryLayerOutput sz)
    else Some (st, fullyLoaded, overflow)
  else Some (st, fullyLoaded, overflow).

(** lines 237-246 *)
Fixpoint graphLoop (devices : list nat) (graph : Z) (layerCounts gpuAllocations : list Z)
    : option (list Z) :=
  match devices with
  | [] => Some gpuAllocations
  | i :: rest =>
      c ← layerCounts !! i;
      if decide (c ≤ 0) then graphLoop rest graph layerCounts gpuAllocations
      else
        a ← gpuAllocations !! i;
        graphLoop rest graph layerCounts (<[i := a +u graph]> gpuAllocations)
  end.

(** lines 255-257 *)
Definition sumAllocations (gpuAllocations : list Z) : Z :=
  fold_left uadd gpuAllocations 0.

(** lines 260-267 *)
Definition tensorSplitOf (gpus : list GpuInfo) (layerCounts : list Z) : string :=
  if decide (1 < length gpus)%nat then String.concat "," (pretty <$> layerCounts)
  else "".

(** The placement as it stands at line 258. *)
Record Plan := {
  final : State;
  fullyLoaded : bool;
  overflow : Z;
  graphOffload : Z;
  memoryRequiredPartial : Z;
  memoryRequiredTotal : Z;
}.

(** lines 152-258 *)
Definition plan (gpus : list GpuInfo) : option Plan :=
  st ← eligible gpus;
  st ← blockLoop blockRange st;
  let '(full, over) := blocksOverflow st in
  '(st, full, over) ← headStage st full over;
  let graph := if (full : bool) then graphFullOffload sz else graphPartialOffload sz in
  gpuAllocations ←
    graphLoop (seq 0 (length gpus)) graph (layerCounts st) (gpuAllocations st);
  let memoryRequiredPartial := sumAllocations gpuAllocations in
  Some {| final := {| layerSize := layerSize st; memoryWeights := memoryWeights st;
                      layerCount := layerCount st; layerCounts := layerCounts st;
                      gpuAllocations := gpuAllocations;
                      gpusWithSpace := gpusWithSpace st |};
          fullyLoaded := full; overflow := over;
          graphOffload := graph;
          memoryRequiredPartial := memoryRequiredPartial;
          memoryRequiredTotal := memoryRequiredPartial +u over |}.

(** lines 260-305 *)
Definition report (gpus : list GpuInfo) (p : Plan) : option MemoryEstimate :=
  gpu0 ← gpus !! 0%nat;
  let estimate (layers graph vram : Z) (split : string) (gpuSizes : list Z) :=
    {| Layers := layers; Graph := graph; VRAMSize := vram;
       TotalSize := memoryRequiredTotal p;
       TensorSplit := split; GPUSizes := gpuSizes;
       inferenceLibrary := Library gpu0;
       layersRequested := NumGPU opts;
       layersModel := blockCount +i 1;
       est_kv := kv sz;
       est_memoryWeights := memoryWeights (final p);
       est_memoryLayerOutput := memoryLayerOutput sz;
       est_graphFullOffload := graphFullOffload sz;
       est_graphPartialOffload := graphPartialOffload sz |} in
  if decide (Library gpu0 = "cpu") then Some (estimate 0 0 0 "" [])
  else if decide (layerCount (final p) = 0) then Some (estimate 0 0 0 "" [])
  else
    Some (estimate (layerCount (final p)) (graphOffload p) (memoryRequiredPartial p)
            (tensorSplitOf gpus (layerCounts (final p)))
            (gpuAllocations (final p))).

End Estimator.

Section Entry.

Variable projectorMemoryRequirements : string → Z.

Definition EstimateGPULayers (gpus : list GpuInfo) (ggml : GGML)
    (projectors : list string) (opts : Options) : option MemoryEstimate :=
  sz ← sizes projectorMemoryRequirements ggml opts gpus projectors;
  p ← plan ggml opts sz gpus;
  report ggml opts sz gpus p.

(** lines 22-30: does the estimate of a grouping fit? *)
Definition fits (ggml : GGML) (opts : Options) (layerCount : Z) : bool :=
  if decide (NumGPU opts < 0) then
    bool_decide (0 < layerCount ∧ to_int (BlockCount ggml +u 1) ≤ layerCount)
  else bool_decide (0 < layerCount ∧ NumGPU opts ≤ layerCount).

(** lines 18-32; [groupings] is the result of [allGpus.ByLibrary()] *)
Fixpoint fitLoop (groupings : list (list GpuInfo)) (ggml : GGML)
    (projectors : list string) (opts : Options) (estimatedVRAM : Z) : option (bool * Z) :=
  match groupings with
  | [] => Some (false, estimatedVRAM)
  | gpus :: rest =>
      estimate ← EstimateGPULayers gpus ggml projectors opts;
      let layerCount := Layers estimate in
      let estimatedVRAM := VRAMSize estimate in
      if fits ggml opts layerCount then Some (true, estimatedVRAM)
      else fitLoop rest ggml projectors opts estimatedVRAM
  end.

Definition PredictServerFit (groupings : list (list GpuInfo)) (ggml : GGML)
    (projectors : list string) (opts : Options) : option (bool * Z) :=
  fitLoop groupings ggml projectors opts 0.

End Entry.


(** ** Notions used in the statements *)

Definition withDevices (ws : list gs) (st : State) : State :=
  {| layerSize := layerSize st; memoryWeights := memoryWeights st;
     layerCount := layerCount st; layerCounts := layerCounts st;
     gpuAllocations := gpuAllocations st; gpusWithSpace := ws |}.

Definition withSizes (l w : Z) (st : State) : State :=
  {| layerSize := l; memoryWeights := w;
     layerCount := layerCount st; layerCounts := layerCounts st;
     gpuAllocations := gpuAllocations st; gpusWithSpace := gpusWithSpace st |}.

Definition withAllocations (al : list Z) (st : State) : State :=
  {| layerSize := layerSize st; memoryWeights := memoryWeights st;
     layerCount := layerCount st; layerCounts := layerCounts st;
     gpuAllocations := al; gpusWithSpace := gpusWithSpace st |}.

(** every index the loops use is in range *)
Definition shaped (n : nat) (st : State) : Prop :=
  length (layerCounts st) = n ∧ length (gpuAllocations st) = n ∧
  ∀ g, g ∈ gpusWithSpace st → (gs_i g < n)%nat.

Section Notions.

Variable ggml : GGML.
Variable opts : Options.
Variable sz : Sizes.

Definition graphOf (full : bool) : Z :=
  if full then graphFullOffload sz else graphPartialOffload sz.

(** *** The moves of the placement loops

    Whatever the two loops do to the state is a sequence of three moves: a
    new layer size is read, devices leave the list, or a unit that passed
    the test of line 199 (line 222 for the head) is charged to a listed
    device. *)

Definition perLayerSizes (l : Z) : Prop :=
  ∃ i b perLayer, TensorLayers ggml !! blk i = Some b ∧
    udiv (kv sz) (BlockCount ggml) = Some perLayer ∧ l = b +u perLayer.

Inductive move : State → State → Prop :=
  | move_size st l w :
      l = layerSize st ∨ perLayerSizes l →
      move st (withSizes l w st)
  | move_drop st ws :
      ws ⊆ gpusWithSpace st → move st (withDevices ws st)
  | move_place st g a size st' :
      g ∈ gpusWithSpace st →
      gpuAllocations st !! gs_i g = Some a →
      a +u maxGraph sz +u size < FreeMemory (gs_g g) →
      size = layerSize st ∨ size = memoryLayerOutput sz →
      place g size st = Some st' →
      move st st'.

(** *** Counting

    [capped]: the test of line 190.  [front i]: where the block loop stands
    when [i] blocks have been looked at. *)

Definition capped (st : State) : Prop :=
  0 ≤ NumGPU opts ∧ NumGPU opts ≤ layerCount st.

Definition front (i : Z) (st : State) : Prop :=
  0 ≤ layerCount st ≤ i ∧
  (layerCount st = i ∨ gpusWithSpace st = [] ∨ capped st).

End Notions.

Arguments move_size {ggml sz}.
Arguments move_drop {ggml sz}.
Arguments move_place {ggml sz}.

(** the sum of a list of byte counts, in [Z] *)
Definition total (l : list Z) : Z := foldr Z.add 0 l.

(** *** Sizes that cannot wrap around

    Below 2^60 bytes (one exbibyte) no sum the estimator forms can reach
    2^64.  [modestSizes] asks it of what the devices report, of the sizes
    fixed before placement, and of the per-layer size of every entry of the
    model. *)
Definition modest (z : Z) : Prop := 0 ≤ z < 2 ^ 60.

#[global] Instance modest_dec z : Decision (modest z).
Proof. unfold modest. apply _. Defined.

Definition modestSizes (gpus : list GpuInfo) (ggml : GGML) (sz : Sizes) : Prop :=
  Forall (λ g, modest (FreeMemory g) ∧ modest (MinimumMemory g)) gpus ∧
  modest (projectorSize sz) ∧
  modest (graphPartialOffload sz) ∧ modest (graphFullOffload sz) ∧
  modest (layerSize0 sz) ∧ modest (memoryLayerOutput sz) ∧
  map_Forall (λ _ b, modest (b +u kv sz / BlockCount ggml)) (TensorLayers ggml).

(** The devices looked at before device [i], and the overhead that enters
    the test of device [i]: that of line 164. *)
Definition eligibleBefore (sz : Sizes) (gpus : list GpuInfo) (i : nat) : list gs :=
  from_option fst []
    (filterLoop sz 0 (take i gpus) [] (replicate (length gpus) 0)).

Definition overheadAt (sz : Sizes) (gpus : list GpuInfo) (i : nat) : Z :=
  if decide (length (eligibleBefore sz gpus i) = 0%nat) then gpuZeroOverhead sz
  else 0.

(** The count at which nothing overflows: every block, and the head when it
    has a size and the cap admits it. *)
Definition fullCount (ggml : GGML) (opts : Options) (sz : Sizes) : Z :=
  if decide (0 < memoryLayerOutput sz ∧
             (NumGPU opts < 0 ∨ BlockCount ggml < NumGPU opts))
  then BlockCount ggml + 1 else BlockCount ggml.

(** device [i] is not listed and nothing was charged to it *)
Definition untouched (i : nat) (st : State) : Prop :=
  (∀ g, g ∈ gpusWithSpace st → gs_i g ≠ i) ∧
  gpuAllocations st !! i = Some 0 ∧ layerCounts st !! i = Some 0.

(** what the loops keep when the sizes are modest: a listed device has room
    for the graph beside what it is charged, no device is charged more than
    its free memory, and a device that holds a layer is charged at least a
    layer buffer *)
Definition budget (sz : Sizes) (gpus : list GpuInfo) (st : State) : Prop :=
  modest (layerSize st) ∧
  (∀ g, g ∈ gpusWithSpace st → gpus !! gs_i g = Some (gs_g g)) ∧
  (∀ k d a, gpus !! k = Some d → gpuAllocations st !! k = Some a →
     0 ≤ a ≤ FreeMemory d) ∧
  (∀ g a, g ∈ gpusWithSpace st → gpuAllocations st !! gs_i g = Some a →
     layerSize0 sz ≤ a ∧ a + maxGraph sz ≤ FreeMemory (gs_g g)) ∧
  (∀ k d a c, gpus !! k = Some d → gpuAllocations st !! k = Some a →
     layerCounts st !! k = Some c → 0 < c → a + maxGraph sz ≤ FreeMemory d) ∧
  (layerCount st ≠ 0 →
   ∃ k a, gpuAllocations st !! k = Some a ∧ layerSize0 sz ≤ a).

(** the per-device counts are counts, and add up to the layer count *)
Definition tallied (st : State) : Prop :=
  Forall (λ c, 0 ≤ c) (layerCounts st) ∧ total (layerCounts st) = layerCount st.

(** Two runs on a one-device group whose device differs in free memory only:
    they go in [lockstep] until the smaller device fails a test; from then
    on the first run places nothing more and stays [behind]. *)
Definition lockstep (g g' : GpuInfo) (st st' : State) : Prop :=
  layerCount st = layerCount st' ∧
  gpuAllocations st = gpuAllocations st' ∧
  layerCounts st = layerCounts st' ∧
  gpusWithSpace st = [{| gs_i := 0; gs_g := g |}] ∧
  gpusWithSpace st' = [{| gs_i := 0; gs_g := g' |}].

Definition behind (g g' : GpuInfo) (st st' : State) : Prop :=
  layerSize st = layerSize st' ∧
  ((gpusWithSpace st = [] ∧ layerCount st ≤ layerCount st') ∨ lockstep g g' st st').

(** The fit test of the predictor as the specification words it: a
    positive count that reaches blockCount + 1 under the automatic sentinel,
    or the requested count otherwise. *)
Definition fitsAsStated (ggml : GGML) (opts : Options) (e : MemoryEstimate) : Prop :=
  0 < Layers e ∧
  if decide (NumGPU opts < 0) then BlockCount ggml + 1 ≤ Layers e
  else NumGPU opts ≤ Layers e.

(** a grouping the predictor walks past: its estimate is there and does not
    fit *)
Definition passedOver (pmr : string → Z) (ggml : GGML) (projectors : list string)
    (opts : Options) (gpus : list GpuInfo) : Prop :=
  ∃ e, EstimateGPULayers pmr gpus ggml projectors opts = Some e ∧
       ¬ fitsAsStated ggml opts e.

(** the second component the predictor returns when no grouping fits *)
Definition lastEstimatedVRAM (pmr : string → Z) (groupings : list (list GpuInfo))
    (ggml : GGML) (projectors : list string) (opts : Options) : Z :=
  match last groupings with
  | Some gpus =>
      from_option VRAMSize 0 (EstimateGPULayers pmr gpus ggml projectors opts)
  | None => 0
  end.

(** ** Sample inputs, on which the statements below are tried *)

Module Sample.

Definition projectorCost (projector : string) : Z :=
  if decide (projector = "clip") then 50 else 0.

Definition model (layers : list (string * Z)) (blocks : Z) : GGML :=
  {| TensorLayers := list_to_map layers; BlockCount := blocks;
     EmbeddingHeadCountK := 1; EmbeddingHeadCountV := 1; HeadCountKV := 1;
     GQA := 1; GraphSize := λ _ _, (0, 0) |}.

(** three blocks of 1000 bytes and a head of 300 + 200 bytes *)
Definition llama : GGML :=
  model [("blk.0", 1000); ("blk.1", 1000); ("blk.2", 1000);
         ("output_norm", 300); ("output", 200)] 3.

(** blocks of different sizes *)
Definition uneven : GGML :=
  model [("blk.0", 1000); ("blk.1", 2000); ("blk.2", 3000); ("output", 500)] 3.

(** a model without cache or graph: ten blocks of 10 bytes, but for the
    third, of 1000 bytes, and no head *)
Definition bulky : GGML :=
  {| TensorLayers :=
       list_to_map ((λ i : nat, (blk i, if decide (i = 2%nat) then 1000 else 10))
                      <$> seq 0 10);
     BlockCount := 10;
     EmbeddingHeadCountK := 0; EmbeddingHeadCountV := 0; HeadCountKV := 0;
     GQA := 1; GraphSize := λ _ _, (0, 0) |}.

(** two blocks of 10 bytes and a head of 100 bytes, no cache, no graph *)
Definition tiny : GGML :=
  {| TensorLayers := list_to_map [("blk.0", 10); ("blk.1", 10); ("output", 100)];
     BlockCount := 2;
     EmbeddingHeadCountK := 0; EmbeddingHeadCountV := 0; HeadCountKV := 0;
     GQA := 1; GraphSize := λ _ _, (0, 0) |}.

Definition metal (free : Z) : GpuInfo :=
  {| Library := "metal"; FreeMemory := free; MinimumMemory := 0 |}.

Definition cuda (free minimum : Z) : GpuInfo :=
  {| Library := "cuda"; FreeMemory := free; MinimumMemory := minimum |}.

Definition cpu : GpuInfo :=
  {| Library := "cpu"; FreeMemory := 64000; MinimumMemory := 0 |}.

Definition auto : Options := {| NumCtx := 4; NumBatch := 2; NumGPU := -1 |}.

Definition upTo (n : Z) : Options := {| NumCtx := 4; NumBatch := 2; NumGPU := n |}.

End Sample.

(** * Properties *)

(** ** Arithmetic *)

Lemma wrap64_range z : is_u64 (wrap64 z).
Proof. unfold is_u64, wrap64. apply Z.mod_pos_bound. lia. Qed.

Lemma wrap64_small z : is_u64 z → wrap64 z = z.
Proof. unfold is_u64, wrap64. intros. by apply Z.mod_small. Qed.

Lemma uadd_range a b : is_u64 (a +u b).
Proof. apply wrap64_range. Qed.

Lemma umul_range a b : is_u64 (a *u b).
Proof. apply wrap64_range. Qed.

Lemma uadd_exact a b : 0 ≤ a + b < 2 ^ 64 → a +u b = a + b.
Proof. intros. by apply wrap64_small. Qed.

Lemma umul_exact a b : 0 ≤ a * b < 2 ^ 64 → a *u b = a * b.
Proof. intros. by apply wrap64_small. Qed.

Lemma to_int_small z : 0 ≤ z < 2 ^ 63 → to_int z = z.
Proof. intros. unfold to_int. case_decide; lia. Qed.

Lemma to_int_range z : is_u64 z → - 2 ^ 63 ≤ to_int z < 2 ^ 63.
Proof. unfold is_u64, to_int. intros. case_decide; lia. Qed.

Lemma iadd_exact a b : 0 ≤ a + b < 2 ^ 63 → a +i b = a + b.
Proof.
  intros. unfold iadd, wrap_int. rewrite wrap64_small by (unfold is_u64; lia).
  by apply to_int_small.
Qed.

Lemma blockCount_range ggml :
  is_u64 (BlockCount ggml) → - 2 ^ 63 ≤ blockCount ggml < 2 ^ 63.
Proof. apply to_int_range. Qed.

Lemma uadd_mod a b : wrap64 a +u b = wrap64 (a + b).
Proof. unfold uadd, wrap64. by rewrite Zplus_mod_idemp_l. Qed.

(** ** The shape of the state *)

Lemma withDevices_same st : withDevices (gpusWithSpace st) st = st.
Proof. by destruct st. Qed.

Lemma dropDevice_with k st :
  dropDevice k st = withDevices (delete k (gpusWithSpace st)) st.
Proof. unfold dropDevice, withDevices. by rewrite delete_take_drop. Qed.

Lemma withDevices_twice ws ws' st :
  withDevices ws (withDevices ws' st) = withDevices ws st.
Proof. done. Qed.

Lemma shaped_with n ws st :
  shaped n st → ws ⊆ gpusWithSpace st → shaped n (withDevices ws st).
Proof. intros (? & ? & Hi) Hsub. repeat split; [done..|]. intros g Hg. apply Hi, Hsub, Hg. Qed.

Lemma delete_subseteq {A} k (l : list A) : delete k l ⊆ l.
Proof. intros x. apply list_elem_of_delete_inv. Qed.

#[local] Arguments Nat.modulo : simpl never.
#[local] Arguments Z.rem : simpl never.
#[local] Arguments Z.pow : simpl never.

(** [m ≫= f = Some y] in a hypothesis: name the intermediate result *)
Ltac bind_inv H x Hx := apply bind_Some in H as (x & Hx & H); simpl in H.

(** a closed statement about numbers is settled by evaluation *)
Ltac settle :=
  vm_compute; repeat split;
  first [ reflexivity
        | let H := fresh in intros H; discriminate H
        | let H := fresh in intros H; exact (H eq_refl) ].

(** [modestSizes] on given inputs is settled by evaluation *)
Ltac modest_by_evaluation :=
  unfold modestSizes; split_and!;
  [ repeat (constructor; [settle|]); constructor
  | settle | settle | settle | settle | settle
  | apply (bool_decide_unpack _); vm_compute; exact I ].

Section Placement.

Variable ggml : GGML.
Variable opts : Options.
Variable sz : Sizes.

#[local] Abbreviation placeBlock := (placeBlock sz).
#[local] Abbreviation placeHead := (placeHead sz).
#[local] Abbreviation blockStep := (blockStep ggml opts sz).
#[local] Abbreviation blockLoop := (blockLoop ggml opts sz).
#[local] Abbreviation sizeBlock := (sizeBlock ggml sz).
#[local] Abbreviation headStage := (headStage ggml opts sz).
#[local] Abbreviation maxGraph := (maxGraph sz).
#[local] Abbreviation blockCount := (blockCount ggml).
#[local] Abbreviation move := (move ggml sz).
#[local] Abbreviation perLayerSizes := (perLayerSizes ggml sz).
#[local] Abbreviation capped := (capped opts).
#[local] Abbreviation front := (front opts).
#[local] Abbreviation graphOf := (graphOf sz).

Lemma place_Some g size st st' :
  place g size st = Some st' →
  ∃ a c, gpuAllocations st !! gs_i g = Some a ∧ layerCounts st !! gs_i g = Some c ∧
    st' = {| layerSize := layerSize st; memoryWeights := memoryWeights st;
             layerCount := layerCount st +i 1;
             layerCounts := <[gs_i g := c +i 1]> (layerCounts st);
             gpuAllocations := <[gs_i g := a +u size]> (gpuAllocations st);
             gpusWithSpace := gpusWithSpace st |}.
Proof.
  unfold place. intros H. bind_inv H a Ha. bind_inv H c Hc.
  exists a, c. by inversion H.
Qed.

Lemma place_total n g size st :
  shaped n st → (gs_i g < n)%nat → is_Some (place g size st).
Proof.
  intros (Hc & Ha & _) Hi. unfold place.
  destruct (lookup_lt_is_Some_2 (gpuAllocations st) (gs_i g)) as [a ->]; [lia|].
  destruct (lookup_lt_is_Some_2 (layerCounts st) (gs_i g)) as [c ->]; [lia|].
  by eexists.
Qed.

Lemma place_shaped n g size st st' :
  shaped n st → place g size st = Some st' → shaped n st'.
Proof.
  intros (Hc & Ha & Hi) (a & c & _ & _ & ->)%place_Some.
  repeat split; simpl; by rewrite ?length_insert.
Qed.

(** The two outcomes of the inner loop of a block: the block went to a
    device still in the list, or the list has been emptied. *)
Lemma placeBlock_cases j i st st' :
  placeBlock j i st = Some st' → j = length (gpusWithSpace st) →
  (∃ ws g a, ws ⊆ gpusWithSpace st ∧ g ∈ ws ∧
      gpuAllocations st !! gs_i g = Some a ∧
      a +u maxGraph +u layerSize st < FreeMemory (gs_g g) ∧
      place g (layerSize st) (withDevices ws st) = Some st')
  ∨ st' = withDevices [] st.
Proof.
  revert st. induction j as [|j IH]; intros st H Hj; simpl in H.
  - right. inversion H; subst. symmetry in Hj. apply length_zero_iff_nil in Hj.
    rewrite <- Hj. symmetry. apply withDevices_same.
  - bind_inv H g Hg. bind_inv H a Ha. case_decide as Hfit.
    + left. exists (gpusWithSpace st), g, a.
      rewrite withDevices_same. split_and!; try done.
      by eapply list_elem_of_lookup_2.
    + rewrite dropDevice_with in H.
      assert (Hlt : (i mod S j < length (gpusWithSpace st))%nat).
      { rewrite <- Hj. apply Nat.mod_upper_bound. lia. }
      apply IH in H as [(ws & g' & a' & Hsub & Hg' & Ha' & Hfit' & Hp) | -> ].
      * left. exists ws, g', a'. split_and!; try done.
        etrans; [exact Hsub|]. apply delete_subseteq.
      * by right.
      * simpl. rewrite length_delete; [lia|]. by apply lookup_lt_is_Some_2.
Qed.

Lemma placeBlock_total n j i st :
  shaped n st → (j ≤ length (gpusWithSpace st))%nat → is_Some (placeBlock j i st).
Proof.
  revert st. induction j as [|j IH]; intros st Hs Hj; simpl; [by eexists|].
  assert (Hlt : (i mod S j < length (gpusWithSpace st))%nat).
  { eapply Nat.lt_le_trans; [apply Nat.mod_upper_bound; lia|done]. }
  destruct (lookup_lt_is_Some_2 _ _ Hlt) as [g Hg]. rewrite Hg. simpl.
  assert (Hi : (gs_i g < n)%nat).
  { apply Hs. by eapply list_elem_of_lookup_2. }
  destruct Hs as (Hc & Ha & Hw).
  destruct (lookup_lt_is_Some_2 (gpuAllocations st) (gs_i g)) as [a Hga]; [lia|].
  rewrite Hga. simpl. case_decide.
  - by apply (place_total n).
  - rewrite dropDevice_with. apply IH.
    + apply shaped_with; [done|]. apply delete_subseteq.
    + simpl. rewrite length_delete; [lia|]. by apply lookup_lt_is_Some_2.
Qed.

Lemma sizeBlock_move i st st' : sizeBlock i st = Some st' → move st st'.
Proof.
  unfold sizeBlock. intros H. bind_inv H l Hl. inversion H; subst.
  apply (move_size st l (memoryWeights st +u l)).
  destruct (TensorLayers ggml !! blk i) as [b|] eqn:Hb.
  - bind_inv Hl perLayer Hp. inversion Hl; subst. right. by exists i, b, perLayer.
  - inversion Hl. by left.
Qed.

Lemma placeBlock_moves i st st' :
  placeBlock (length (gpusWithSpace st)) i st = Some st' → rtc move st st'.
Proof.
  intros H. apply placeBlock_cases in H; [|done].
  destruct H as [(ws & g & a & Hsub & Hg & Ha & Hfit & Hp)| ->].
  - eapply rtc_l; [by apply (move_drop st ws)|].
    apply rtc_once. eapply (move_place _ g a (layerSize st)); eauto.
  - apply rtc_once. apply move_drop. set_solver.
Qed.

Lemma blockStep_moves i st st' : blockStep i st = Some st' → rtc move st st'.
Proof.
  unfold blockStep. intros H. bind_inv H st1 H1.
  eapply rtc_l; [by eapply sizeBlock_move|].
  case_decide.
  - inversion H. done.
  - by apply (placeBlock_moves i).
Qed.

Lemma blockLoop_moves blocks st st' : blockLoop blocks st = Some st' → rtc move st st'.
Proof.
  revert st. induction blocks as [|i blocks IH]; intros st H; simpl in H.
  - inversion H. done.
  - bind_inv H st1 H1. etrans; [by eapply blockStep_moves|by apply IH].
Qed.

(** The two outcomes of the loop of the head: placed on a listed device, or
    nothing changed. *)
Lemma placeHead_cases j st st' :
  placeHead j st = Some st' →
  (∃ g a, g ∈ gpusWithSpace st ∧ gpuAllocations st !! gs_i g = Some a ∧
      a +u maxGraph +u memoryLayerOutput sz < FreeMemory (gs_g g) ∧
      place g (memoryLayerOutput sz) st = Some st')
  ∨ st' = st.
Proof.
  induction j as [|j IH]; intros H; simpl in H.
  - right. by inversion H.
  - bind_inv H g Hg. bind_inv H a Ha. case_decide as Hfit; [|by apply IH].
    left. exists g, a. split_and!; try done.
    unfold index in Hg. case_decide; [|done]. by eapply list_elem_of_lookup_2.
Qed.

Lemma placeHead_moves j st st' : placeHead j st = Some st' → rtc move st st'.
Proof.
  intros [(g & a & Hg & Ha & Hfit & Hp)| ->]%placeHead_cases; [|done].
  apply rtc_once. eapply (move_place _ g a (memoryLayerOutput sz)); eauto.
Qed.

Lemma headStage_moves st full over st' full' over' :
  headStage st full over = Some (st', full', over') → rtc move st st'.
Proof.
  unfold headStage. intros H. case_decide.
  - bind_inv H st1 H1. apply placeHead_moves in H1.
    case_decide; by inversion H; subst.
  - by inversion H.
Qed.

(** a property kept by every move is kept by the loops *)
Lemma moves_keep (P : State → Prop) st st' :
  (∀ s s', move s s' → P s → P s') → rtc move st st' → P st → P st'.
Proof. intros Hkeep Hm. induction Hm; eauto. Qed.

Lemma move_shaped n st st' : move st st' → shaped n st → shaped n st'.
Proof.
  destruct 1 as [st l w ?|st ws Hsub|st g a size st' Hg Ha Hfit Hsz Hp]; intros Hs.
  - done.
  - by apply shaped_with.
  - by eapply place_shaped.
Qed.

Lemma sizeBlock_Some i st st' :
  sizeBlock i st = Some st' →
  ∃ l, st' = withSizes l (memoryWeights st +u l) st ∧
    match TensorLayers ggml !! blk i with
    | Some b => ∃ perLayer,
        udiv (kv sz) (BlockCount ggml) = Some perLayer ∧ l = b +u perLayer
    | None => l = layerSize st
    end.
Proof.
  unfold sizeBlock. intros H. bind_inv H l Hl. inversion H; subst.
  exists l. split; [done|].
  destruct (TensorLayers ggml !! blk i) as [b|].
  - bind_inv Hl perLayer Hp. inversion Hl. by exists perLayer.
  - by inversion Hl.
Qed.

Lemma place_fields g size st st' :
  place g size st = Some st' →
  layerCount st' = layerCount st +i 1 ∧ layerSize st' = layerSize st ∧
  gpusWithSpace st' = gpusWithSpace st ∧ memoryWeights st' = memoryWeights st.
Proof. by intros (a & c & _ & _ & ->)%place_Some. Qed.

(** One turn of the block loop either leaves the count alone -- the cap
    was reached or no device is left -- or adds one. *)
Lemma blockStep_count i st st' :
  blockStep i st = Some st' →
  (∃ l, sizeBlock i st = Some (withSizes l (memoryWeights st +u l) st) ∧
        layerSize st' = l) ∧
  ((layerCount st' = layerCount st ∧ (capped st ∨ gpusWithSpace st' = [])) ∨
   (layerCount st' = layerCount st +i 1 ∧ ¬ capped st ∧ gpusWithSpace st ≠ [])).
Proof.
  unfold blockStep. intros H. bind_inv H st1 H1.
  destruct (sizeBlock_Some _ _ _ H1) as (l & -> & _).
  case_decide as Hcap.
  - inversion H; subst. split; [by exists l|]. left. split; [done|by left].
  - apply placeBlock_cases in H; [|done].
    destruct H as [(ws & g & a & Hsub & Hg & Ha & Hfit & Hp)| ->].
    + apply place_fields in Hp as (Hc & Hl & Hw & _). simpl in *.
      split; [by exists l|]. right. split_and!; [done|done|].
      intros Hnil. rewrite Hnil in Hsub. set_solver.
    + split; [by exists l|]. left. split; [done|by right].
Qed.

Lemma blockLoop_front m a st st' :
  blockLoop (seq a m) st = Some st' →
  front (Z.of_nat a) st → Z.of_nat (a + m) < 2 ^ 63 →
  front (Z.of_nat (a + m)) st'.
Proof.
  revert a st. induction m as [|m IH]; intros a st H Hf Hm; simpl in H.
  - inversion H; subst. by replace (a + 0)%nat with a by lia.
  - bind_inv H st1 H1. replace (a + S m)%nat with (S a + m)%nat by lia.
    apply (IH (S a) st1); [done| |lia].
    destruct Hf as (Hr & Hf).
    apply blockStep_count in H1 as (_ & [(Hc & Hstop)|(Hc & Hncap & Hws)]).
    + split; [lia|]. right. destruct Hstop as [Hcap|Hnil]; [right|by left].
      unfold capped in *. lia.
    + destruct Hf as [Ha|[Hnil|Hcap]]; [|done..].
      rewrite iadd_exact in Hc by lia. split; [lia|left; lia].
Qed.

(** the layer size the loop ends with is that of the last block *)
Lemma blockLoop_app l1 l2 st :
  blockLoop (l1 ++ l2) st = blockLoop l1 st ≫= blockLoop l2.
Proof.
  revert st. induction l1 as [|i l1 IH]; intros st; simpl; [done|].
  destruct (blockStep i st); simpl; [apply IH|done].
Qed.

Lemma blockLoop_layerSize m st st' b perLayer :
  blockLoop (seq 0 (S m)) st = Some st' →
  TensorLayers ggml !! blk m = Some b →
  udiv (kv sz) (BlockCount ggml) = Some perLayer →
  layerSize st' = b +u perLayer.
Proof.
  rewrite seq_S, blockLoop_app. simpl. intros H Hb Hp.
  bind_inv H st1 H1. bind_inv H st2 H2. inversion H; subst.
  apply blockStep_count in H2 as ((l & Hl & <-) & _).
  apply sizeBlock_Some in Hl as (l' & Heq & Hl'). rewrite Hb in Hl'.
  destruct Hl' as (p' & Hp' & ->). rewrite Hp in Hp'. inversion Hp'; subst.
  by inversion Heq.
Qed.

(** *** No panic once the sizes are known *)

Lemma sizeBlock_total i st :
  BlockCount ggml ≠ 0 → is_Some (sizeBlock i st).
Proof.
  intros Hn. unfold sizeBlock, udiv. rewrite decide_False by done.
  destruct (TensorLayers ggml !! blk i); by eexists.
Qed.

Lemma blockLoop_total n blocks st :
  BlockCount ggml ≠ 0 → shaped n st → is_Some (blockLoop blocks st).
Proof.
  intros Hn. revert st. induction blocks as [|i blocks IH]; intros st Hs; simpl.
  - by eexists.
  - assert (is_Some (blockStep i st)) as [st1 H1].
    { unfold blockStep. destruct (sizeBlock_total i st Hn) as [st0 H0].
      rewrite H0. simpl. case_decide; [by eexists|].
      apply (placeBlock_total n); [|done].
      eapply move_shaped; [by eapply sizeBlock_move|done]. }
    rewrite H1. simpl. apply IH.
    eapply (moves_keep (shaped n)); [|by eapply blockStep_moves|done].
    intros ??. apply move_shaped.
Qed.

Lemma placeHead_total n j st :
  shaped n st → (j ≤ length (gpusWithSpace st))%nat → 0 ≤ layerCount st →
  is_Some (placeHead j st).
Proof.
  intros Hs Hj Hc. induction j as [|j IH]; simpl; [by eexists|].
  assert (0 ≤ Z.rem (layerCount st) (Z.of_nat (S j)) < Z.of_nat (S j)) as Hrem.
  { apply Z.rem_bound_pos; lia. }
  unfold index. rewrite decide_True by lia.
  destruct (lookup_lt_is_Some_2 (gpusWithSpace st)
              (Z.to_nat (Z.rem (layerCount st) (Z.of_nat (S j))))) as [g Hg]; [lia|].
  rewrite Hg. simpl.
  assert (Hi : (gs_i g < n)%nat).
  { apply Hs. by eapply list_elem_of_lookup_2. }
  destruct (lookup_lt_is_Some_2 (gpuAllocations st) (gs_i g)) as [a Ha].
  { destruct Hs as (_ & -> & _). done. }
  rewrite Ha. simpl. case_decide; [by apply (place_total n)|apply IH; lia].
Qed.

Lemma headStage_total n st full over :
  shaped n st → 0 ≤ layerCount st → is_Some (headStage st full over).
Proof.
  intros Hs Hc. unfold headStage. case_decide; [|by eexists].
  destruct (placeHead_total n (length (gpusWithSpace st)) st) as [st1 H1]; [done..|].
  rewrite H1. simpl. case_decide; by eexists.
Qed.

(** *** The eligible devices (lines 152-179) *)

#[local] Abbreviation filterLoop := (filterLoop sz).
#[local] Abbreviation threshold := (threshold sz).
#[local] Abbreviation gpuZeroOverhead := (gpuZeroOverhead sz).

Lemma filterLoop_app l1 l2 i ws al :
  filterLoop i (l1 ++ l2) ws al =
  filterLoop i l1 ws al ≫= λ r, filterLoop (i + length l1) l2 r.1 r.2.
Proof.
  revert i ws al. induction l1 as [|g l1 IH]; intros i ws al; simpl.
  - by replace (i + 0)%nat with i by lia.
  - replace (i + S (length l1))%nat with (S i + length l1)%nat by lia.
    case_decide; [apply IH|].
    destruct (al !! i); simpl; [apply IH|done].
Qed.

(** What the filter appends to the list and what it charges. *)
Lemma filterLoop_spec rest i ws al ws' al' :
  filterLoop i rest ws al = Some (ws', al') →
  ∃ new, ws' = ws ++ new ∧ length al' = length al ∧
    (∀ g, g ∈ new → (i ≤ gs_i g)%nat ∧ rest !! (gs_i g - i)%nat = Some (gs_g g)) ∧
    NoDup (gs_i <$> new) ∧
    (ws = [] → ∀ g, head new = Some g →
       ¬ FreeMemory (gs_g g) < threshold gpuZeroOverhead (gs_g g) (layerSize0 sz)) ∧
    (∀ g, g ∈ new → ws ≠ [] ∨ head new ≠ Some g →
       ¬ FreeMemory (gs_g g) < threshold 0 (gs_g g) (layerSize0 sz)) ∧
    (∀ g, g ∈ new →
       al' !! gs_i g =
       (λ a, a +u (MinimumMemory (gs_g g) +u layerSize0 sz)) <$> al !! gs_i g) ∧
    (∀ k, k ∉ gs_i <$> new → al' !! k = al !! k).
Proof.
  revert i ws al. induction rest as [|d rest IH]; intros i ws al H; simpl in H.
  { inversion H; subst. exists []. rewrite app_nil_r.
    split_and!; try done; try (intros ? []%elem_of_nil). constructor. }
  case_decide as Hlow.
  - apply IH in H as (new & -> & Hlen & Hmem & Hnd & Hfirst & Hnext & Hal & Hout).
    exists new. split_and!; try done.
    intros g Hg. destruct (Hmem g Hg) as (Hi & Hl). split; [lia|].
    replace (gs_i g - i)%nat with (S (gs_i g - S i)) by lia. done.
  - bind_inv H a Ha.
    apply IH in H as (new & -> & Hlen & Hmem & Hnd & Hfirst & Hnext & Hal & Hout).
    set (g0 := {| gs_i := i; gs_g := d |}) in *.
    assert (Hfresh : i ∉ gs_i <$> new).
    { intros (g & Hi & Hg)%list_elem_of_fmap. apply Hmem in Hg. lia. }
    exists (g0 :: new). split_and!.
    + by rewrite <- app_assoc.
    + by rewrite Hlen, length_insert.
    + intros g [->|Hg]%elem_of_cons; simpl.
      * split; [lia|]. by replace (i - i)%nat with 0%nat by lia.
      * destruct (Hmem g Hg) as (Hi & Hl). split; [lia|].
        replace (gs_i g - i)%nat with (S (gs_i g - S i)) by lia. done.
    + rewrite fmap_cons. by constructor.
    + intros -> g [= <-]. simpl. by rewrite decide_True in Hlow.
    + intros g [->|Hg]%elem_of_cons Hcase; simpl.
      * destruct Hcase as [Hws|Hne]; [|done].
        rewrite decide_False in Hlow; [done|]. by destruct ws.
      * apply Hnext; [done|]. left. by destruct ws.
    + intros g [->|Hg]%elem_of_cons; simpl.
      * rewrite Hout by done. rewrite Ha. simpl.
        apply list_lookup_insert_eq. by eapply lookup_lt_Some.
      * rewrite Hal by done. rewrite list_lookup_insert_ne; [done|].
        apply Hmem in Hg. lia.
    + intros k Hk. rewrite fmap_cons in Hk. apply not_elem_of_cons in Hk as (Hki & Hk).
      rewrite Hout by done. by apply list_lookup_insert_ne.
Qed.

Lemma filterLoop_total rest i ws al :
  (i + length rest ≤ length al)%nat → is_Some (filterLoop i rest ws al).
Proof.
  revert i ws al. induction rest as [|d rest IH]; intros i ws al Hlen; simpl in *.
  - by eexists.
  - case_decide; [apply IH; lia|].
    destruct (lookup_lt_is_Some_2 al i) as [a Ha]; [lia|]. rewrite Ha. simpl.
    apply IH. rewrite length_insert. lia.
Qed.

(** The state the block loop starts from. *)
Lemma eligible_spec gpus st :
  eligible sz gpus = Some st →
  layerSize st = layerSize0 sz ∧ layerCount st = 0 ∧
  layerCounts st = replicate (length gpus) 0 ∧
  length (gpuAllocations st) = length gpus ∧
  NoDup (gs_i <$> gpusWithSpace st) ∧
  (∀ g, g ∈ gpusWithSpace st → gpus !! gs_i g = Some (gs_g g)) ∧
  (∀ k, (k < length gpus)%nat → k ∉ gs_i <$> gpusWithSpace st →
     gpuAllocations st !! k = Some 0) ∧
  (∀ g, head (gpusWithSpace st) = Some g →
     ¬ FreeMemory (gs_g g) < threshold gpuZeroOverhead (gs_g g) (layerSize0 sz) ∧
     gpuAllocations st !! gs_i g =
       Some (0 +u (MinimumMemory (gs_g g) +u layerSize0 sz) +u gpuZeroOverhead)) ∧
  (∀ g, g ∈ gpusWithSpace st → head (gpusWithSpace st) ≠ Some g →
     ¬ FreeMemory (gs_g g) < threshold 0 (gs_g g) (layerSize0 sz) ∧
     gpuAllocations st !! gs_i g =
       Some (0 +u (MinimumMemory (gs_g g) +u layerSize0 sz))).
Proof.
  unfold eligible. intros H. bind_inv H r Hr. destruct r as [ws al].
  bind_inv H al' Hz. inversion H; subst; simpl. clear H.
  apply filterLoop_spec in Hr
    as (new & Hws & Hlen & Hmem & Hnd & Hfirst & Hnext & Hal & Hout).
  simpl in Hws. subst new. rewrite length_replicate in Hlen.
  assert (Hidx : ∀ g, g ∈ ws → (gs_i g < length gpus)%nat ∧ gpus !! gs_i g = Some (gs_g g)).
  { intros g Hg. destruct (Hmem g Hg) as (_ & Hl).
    replace (gs_i g - 0)%nat with (gs_i g) in Hl by lia.
    split; [by eapply lookup_lt_Some|done]. }
  assert (Hpre : ∀ g, g ∈ ws →
            al !! gs_i g = Some (0 +u (MinimumMemory (gs_g g) +u layerSize0 sz))).
  { intros g Hg. rewrite Hal by done.
    rewrite lookup_replicate_2; [done|]. by apply Hidx. }
  unfold chargeGpuZero in Hz. destruct ws as [|g0 ws].
  - inversion Hz; subst. split_and!; try done.
    + intros g []%elem_of_nil.
    + intros k Hk _. rewrite Hout by (rewrite fmap_nil; apply not_elem_of_nil).
      by apply lookup_replicate_2.
    + intros g []%elem_of_nil.
  - bind_inv Hz a Ha. inversion Hz; subst. clear Hz.
    rewrite Hpre in Ha by left. inversion Ha; subst. clear Ha.
    split_and!; try done.
    + by rewrite length_insert.
    + intros g Hg. by apply Hidx.
    + intros k Hk Hnot. rewrite fmap_cons in *.
      apply not_elem_of_cons in Hnot as (Hne & Hnot').
      rewrite list_lookup_insert_ne by done.
      rewrite Hout by (by apply not_elem_of_cons).
      by apply lookup_replicate_2.
    + intros g [= <-]. split; [by apply Hfirst|].
      apply list_lookup_insert_eq. rewrite Hlen. apply Hidx. by left.
    + intros g Hg Hne. simpl in Hne. split; [apply Hnext; [done|by right]|].
      rewrite list_lookup_insert_ne; [by apply Hpre|].
      apply elem_of_cons in Hg as [->|Hg]; [done|].
      rewrite fmap_cons in Hnd. apply NoDup_cons in Hnd as (Hnot & _).
      intros Heq. apply Hnot. rewrite Heq. by apply list_elem_of_fmap_2.
Qed.

Lemma eligible_total gpus : is_Some (eligible sz gpus).
Proof.
  unfold eligible.
  destruct (filterLoop_total gpus 0 [] (replicate (length gpus) 0)) as [[ws al] Hr].
  { rewrite length_replicate. lia. }
  rewrite Hr. simpl.
  apply filterLoop_spec in Hr as (new & Hws & Hlen & Hmem & _).
  simpl in Hws. subst new. rewrite length_replicate in Hlen.
  unfold chargeGpuZero. destruct ws as [|g0 ws]; [by eexists|].
  destruct (lookup_lt_is_Some_2 al (gs_i g0)) as [a Ha].
  { rewrite Hlen. destruct (Hmem g0) as (_ & Hl); [by left|].
    replace (gs_i g0 - 0)%nat with (gs_i g0) in Hl by lia. by eapply lookup_lt_Some. }
  rewrite Ha. by eexists.
Qed.

Lemma eligible_shaped gpus st :
  eligible sz gpus = Some st → shaped (length gpus) st.
Proof.
  intros (_ & _ & Hc & Hl & _ & Hmem & _)%eligible_spec.
  repeat split; [by rewrite Hc, length_replicate|done|].
  intros g Hg. eapply lookup_lt_Some. by apply Hmem.
Qed.

(** *** The graph charge (lines 237-246) and the whole plan *)

Lemma graphLoop_spec devices graph counts allocs allocs' :
  NoDup devices →
  graphLoop devices graph counts allocs = Some allocs' →
  length allocs' = length allocs ∧
  (∀ k, k ∉ devices → allocs' !! k = allocs !! k) ∧
  (∀ k a c, k ∈ devices → allocs !! k = Some a → counts !! k = Some c →
     allocs' !! k = Some (if decide (c ≤ 0) then a else a +u graph)).
Proof.
  revert allocs. induction devices as [|i devices IH]; intros allocs Hnd H; simpl in H.
  { inversion H; subst. split_and!; try done. by intros k a c []%elem_of_nil. }
  apply NoDup_cons in Hnd as (Hi & Hnd). bind_inv H c Hc. case_decide as Hzero.
  - apply IH in H as (Hlen & Hout & Hin); [|done]. split_and!; [done| |].
    + intros k (? & ?)%not_elem_of_cons. by apply Hout.
    + intros k a c' [->|Hk]%elem_of_cons Ha Hc'.
      * rewrite Hout, Ha by done. rewrite Hc in Hc'. inversion Hc'; subst.
        by rewrite decide_True.
      * by apply Hin.
  - bind_inv H a Ha. apply IH in H as (Hlen & Hout & Hin); [|done].
    rewrite length_insert in Hlen. split_and!; [done| |].
    + intros k (? & ?)%not_elem_of_cons. rewrite Hout by done.
      by apply list_lookup_insert_ne.
    + intros k a' c' [->|Hk]%elem_of_cons Ha' Hc'.
      * rewrite Hout by done. rewrite Hc in Hc'. rewrite Ha in Ha'.
        inversion Hc'; inversion Ha'; subst. rewrite decide_False by done.
        apply list_lookup_insert_eq. by eapply lookup_lt_Some.
      * apply Hin; [done| |done]. rewrite list_lookup_insert_ne; [done|].
        intros ->. done.
Qed.

Lemma graphLoop_total devices graph counts allocs :
  (∀ i, i ∈ devices → (i < length counts)%nat ∧ (i < length allocs)%nat) →
  is_Some (graphLoop devices graph counts allocs).
Proof.
  revert allocs. induction devices as [|i devices IH]; intros allocs Hr; simpl.
  { by eexists. }
  destruct (Hr i) as (Hc & Ha); [by left|].
  destruct (lookup_lt_is_Some_2 counts i Hc) as [c ->]. simpl. case_decide.
  - apply IH. intros k Hk. apply Hr. by right.
  - destruct (lookup_lt_is_Some_2 allocs i Ha) as [a ->]. simpl.
    apply IH. intros k Hk. rewrite length_insert. apply Hr. by right.
Qed.

(** The stages a plan went through. *)
Lemma plan_Some gpus p :
  plan ggml opts sz gpus = Some p →
  ∃ st0 st1 st2 al,
    eligible sz gpus = Some st0 ∧
    blockLoop (blockRange ggml) st0 = Some st1 ∧
    headStage st1 (blocksOverflow ggml st1).1 (blocksOverflow ggml st1).2
      = Some (st2, fullyLoaded p, overflow p) ∧
    graphLoop (seq 0 (length gpus)) (graphOf (fullyLoaded p))
      (layerCounts st2) (gpuAllocations st2) = Some al ∧
    final p = withAllocations al st2 ∧
    graphOffload p = graphOf (fullyLoaded p) ∧
    memoryRequiredPartial p = sumAllocations al ∧
    memoryRequiredTotal p = sumAllocations al +u overflow p.
Proof.
  unfold plan. intros H. bind_inv H st0 H0. bind_inv H st1 H1.
  destruct (blocksOverflow ggml st1) as [full0 over0] eqn:Ho.
  bind_inv H r Hr. destruct r as [[st2 full] over]. bind_inv H al Hal.
  inversion H; subst; simpl. exists st0, st1, st2, al. rewrite Ho.
  by split_and!.
Qed.

Lemma blockRange_front st0 st1 :
  is_u64 (BlockCount ggml) → layerCount st0 = 0 →
  blockLoop (blockRange ggml) st0 = Some st1 →
  front (Z.of_nat (Z.to_nat blockCount)) st1.
Proof.
  intros Hu H0 H. pose proof (blockCount_range _ Hu) as Hr.
  apply (blockLoop_front _ 0 st0 st1) in H; [done| |lia].
  split; [simpl; lia|left; by simpl].
Qed.

Lemma plan_total gpus :
  0 < BlockCount ggml < 2 ^ 64 → is_Some (plan ggml opts sz gpus).
Proof.
  intros Hb. unfold plan.
  destruct (eligible_total gpus) as [st0 H0]. rewrite H0. simpl.
  pose proof (eligible_shaped _ _ H0) as Hs0.
  destruct (blockLoop_total (length gpus) (blockRange ggml) st0) as [st1 H1]; [lia|done|].
  rewrite H1. simpl.
  assert (Hs1 : shaped (length gpus) st1).
  { eapply (moves_keep (shaped _)); [|by eapply blockLoop_moves|done].
    intros ??. apply move_shaped. }
  assert (Hf : front (Z.of_nat (Z.to_nat blockCount)) st1).
  { eapply blockRange_front; [unfold is_u64; lia| |done].
    by apply eligible_spec in H0 as (_ & ? & _). }
  destruct (blocksOverflow ggml st1) as [full0 over0].
  destruct (headStage_total (length gpus) st1 full0 over0) as [[[st2 full] over] H2];
    [done|apply Hf|].
  rewrite H2. simpl.
  assert (Hs2 : shaped (length gpus) st2).
  { eapply (moves_keep (shaped _)); [|by eapply headStage_moves|done].
    intros ??. apply move_shaped. }
  destruct (graphLoop_total (seq 0 (length gpus)) (graphOf full)
              (layerCounts st2) (gpuAllocations st2)) as [al Hal].
  { intros i Hi%elem_of_seq. destruct Hs2 as (-> & -> & _). lia. }
  unfold graphOf in Hal. rewrite Hal. by eexists.
Qed.

End Placement.

(** ** The estimate, stage by stage *)

Lemma EstimateGPULayers_Some pmr gpus ggml projectors opts e :
  EstimateGPULayers pmr gpus ggml projectors opts = Some e →
  ∃ sz p, sizes pmr ggml opts gpus projectors = Some sz ∧
    plan ggml opts sz gpus = Some p ∧ report ggml opts sz gpus p = Some e.
Proof.
  unfold EstimateGPULayers. intros H. bind_inv H sz Hsz. bind_inv H p Hp.
  by exists sz, p.
Qed.

(** The two ways an estimate is reported: the degenerate one of lines
    292-298, or the plan itself. *)
Lemma report_Some ggml opts sz gpus p e :
  report ggml opts sz gpus p = Some e →
  TotalSize e = memoryRequiredTotal p ∧
  ∃ gpu0, gpus !! 0%nat = Some gpu0 ∧
    (((Library gpu0 = "cpu" ∨ layerCount (final p) = 0) ∧
      Layers e = 0 ∧ VRAMSize e = 0 ∧ GPUSizes e = [] ∧ TensorSplit e = "")
     ∨
     (Library gpu0 ≠ "cpu" ∧ layerCount (final p) ≠ 0 ∧
      Layers e = layerCount (final p) ∧ VRAMSize e = memoryRequiredPartial p ∧
      GPUSizes e = gpuAllocations (final p) ∧ Graph e = graphOffload p)).
Proof.
  unfold report. intros H. bind_inv H gpu0 H0.
  repeat case_decide; inversion H; subst; simpl; (split; [done|]);
    exists gpu0; (split; [done|]); [left|left|right]; split_and!; auto.
Qed.

Lemma sizes_total pmr ggml opts gpus projectors :
  gpus ≠ [] → BlockCount ggml ≠ 0 →
  is_Some (sizes pmr ggml opts gpus projectors).
Proof.
  intros Hg Hb. unfold sizes. destruct gpus as [|gpu0 gpus]; [done|]. simpl.
  destruct (projectorLoop _ _ _) as [ps ctx]. unfold udiv.
  rewrite decide_False by done. simpl.
  destruct (GraphSize _ _ _) as [gp gf].
  repeat case_decide; by eexists.
Qed.

Lemma EstimateGPULayers_total pmr gpus ggml projectors opts :
  gpus ≠ [] → 0 < BlockCount ggml < 2 ^ 64 →
  is_Some (EstimateGPULayers pmr gpus ggml projectors opts).
Proof.
  intros Hg Hb. unfold EstimateGPULayers.
  destruct (sizes_total pmr ggml opts gpus projectors) as [sz Hsz]; [done|lia|].
  rewrite Hsz. simpl.
  destruct (plan_total ggml opts sz gpus Hb) as [p Hp]. rewrite Hp. simpl.
  unfold report. destruct gpus as [|gpu0 gpus]; [done|]. simpl.
  repeat case_decide; by eexists.
Qed.

(** ** Byte counts stay unsigned 64-bit values *)

Lemma total_u64s l : Forall is_u64 l → 0 ≤ total l.
Proof. unfold is_u64. induction 1; simpl; lia. Qed.

Lemma sumAllocations_total l : sumAllocations l = wrap64 (total l).
Proof.
  unfold sumAllocations.
  assert (∀ x, fold_left uadd l (wrap64 x) = wrap64 (x + total l)) as Hgen.
  { induction l as [|a l IH]; intros x; simpl.
    - by rewrite Z.add_0_r.
    - rewrite uadd_mod, IH. f_equal. lia. }
  apply (Hgen 0).
Qed.

Section Plans.

Variable ggml : GGML.
Variable opts : Options.
Variable sz : Sizes.

#[local] Abbreviation move := (move ggml sz).
#[local] Abbreviation plan := (plan ggml opts sz).

(** a property kept by every move holds after the head stage if it holds
    for the eligible devices *)
Lemma plan_keeps (P : State → Prop) blocks st0 st1 st2 full over full' over' :
  (∀ s s', move s s' → P s → P s') →
  blockLoop ggml opts sz blocks st0 = Some st1 →
  headStage ggml opts sz st1 full over = Some (st2, full', over') →
  P st0 → P st2.
Proof.
  intros Hkeep H1 H2. apply (moves_keep ggml sz P); [done|].
  etrans; [by eapply blockLoop_moves|by eapply headStage_moves].
Qed.

Lemma move_u64s st st' :
  move st st' →
  Forall is_u64 (gpuAllocations st) → Forall is_u64 (gpuAllocations st').
Proof.
  destruct 1 as [st l w ?|st ws Hsub|st g a size st' Hg Ha Hfit Hsz Hp]; [done..|].
  apply place_Some in Hp as (a' & c & _ & _ & ->). simpl. intros Hu.
  apply Forall_insert; [done|apply uadd_range].
Qed.

Lemma plan_u64s gpus p :
  plan gpus = Some p → Forall is_u64 (gpuAllocations (final p)).
Proof.
  intros (st0 & st1 & st2 & al & H0 & H1 & H2 & Hal & -> & _)%plan_Some. simpl.
  assert (Hu0 : Forall is_u64 (gpuAllocations st0)).
  { apply eligible_spec in H0 as (_ & _ & _ & Hlen & _ & _ & Hout & Hhd & Htl).
    apply Forall_lookup. intros k a Hk.
    destruct (decide (k ∈ gs_i <$> gpusWithSpace st0)) as [Hin|Hnot].
    - apply list_elem_of_fmap in Hin as (g & -> & Hg).
      destruct (decide (head (gpusWithSpace st0) = Some g)) as [Hh|Hh].
      + destruct (Hhd g Hh) as (_ & Heq). rewrite Heq in Hk. inversion Hk.
        apply uadd_range.
      + destruct (Htl g Hg Hh) as (_ & Heq). rewrite Heq in Hk. inversion Hk.
        apply uadd_range.
    - rewrite Hout in Hk; [|by rewrite <- Hlen; eapply lookup_lt_Some|done].
      inversion Hk. unfold is_u64. lia. }
  assert (Hu2 : Forall is_u64 (gpuAllocations st2)).
  { by apply (plan_keeps _ _ st0 st1 st2 _ _ _ _ move_u64s H1 H2). }
  assert (Hs2 : shaped (length gpus) st2).
  { apply (plan_keeps _ _ st0 st1 st2 _ _ _ _ (move_shaped ggml sz _) H1 H2).
    by apply (eligible_shaped sz). }
  apply graphLoop_spec in Hal as (Hlen & Hout & Hin); [|apply NoDup_seq].
  apply Forall_lookup. intros k a Hk.
  assert (Hlt : (k < length (gpuAllocations st2))%nat).
  { rewrite <- Hlen. by eapply lookup_lt_Some. }
  destruct (lookup_lt_is_Some_2 _ _ Hlt) as [a2 Ha2].
  destruct (decide (k ∈ seq 0 (length gpus))) as [Hs|Hs].
  - destruct (layerCounts st2 !! k) as [c|] eqn:Hc.
    + rewrite (Hin k a2 c) in Hk by done. inversion Hk. case_decide.
      * by eapply Forall_lookup_1.
      * apply uadd_range.
    + apply lookup_ge_None in Hc. apply elem_of_seq in Hs.
      destruct Hs2 as (Hlc & _). lia.
  - rewrite Hout, Ha2 in Hk by done. inversion Hk; subst.
    by eapply Forall_lookup_1.
Qed.

(** *** A device the filter left out is never touched *)

Variable gpus : list GpuInfo.

Lemma move_untouched i st st' : move st st' → untouched i st → untouched i st'.
Proof.
  destruct 1 as [st l w ?|st ws Hsub|st g a size st' Hg Ha Hfit Hsz Hp];
    intros (Hws & Hal & Hc); [done|..].
  - split_and!; [|done..]. intros g Hg. by apply Hws, Hsub.
  - apply place_Some in Hp as (a' & c & _ & _ & ->). unfold untouched. simpl.
    pose proof (Hws g Hg). split_and!; [done|..]; by rewrite list_lookup_insert_ne.
Qed.

(** The device at index [i] fails the test of line 167: it is not listed. *)
Lemma eligible_leaves_out i g st0 :
  gpus !! i = Some g →
  FreeMemory g < threshold sz (overheadAt sz gpus i) g (layerSize0 sz) →
  eligible sz gpus = Some st0 →
  untouched i st0.
Proof.
  intros Hi Hlow H0.
  assert (Hlt : (i < length gpus)%nat) by by eapply lookup_lt_Some.
  pose proof (eligible_spec _ _ _ H0) as (_ & _ & Hc & _ & _ & _ & Hout & _).
  assert (Hnot : ∀ g', g' ∈ gpusWithSpace st0 → gs_i g' ≠ i).
  { unfold eligible in H0. bind_inv H0 r Hr. destruct r as [ws al].
    bind_inv H0 al' Hz. inversion H0; subst; simpl. clear H0 Hout Hc.
    unfold overheadAt, eligibleBefore in Hlow.
    set (R := replicate (length gpus) 0) in *.
    rewrite <- (take_drop_middle gpus i g Hi), filterLoop_app in Hr.
    bind_inv Hr r1 H1. destruct r1 as [ws1 al1]. rewrite H1 in Hlow.
    simpl in Hlow, Hr.
    rewrite decide_True in Hr by done.
    apply filterLoop_spec in H1 as (new1 & Hws1 & _ & Hmem1 & _).
    apply filterLoop_spec in Hr as (new2 & -> & _ & Hmem2 & _).
    simpl in Hws1. subst ws1.
    rewrite length_take_le in Hmem2 by lia.
    intros g' [Hg'|Hg']%elem_of_app.
    - destruct (Hmem1 g' Hg') as (_ & Hl). apply lookup_lt_Some in Hl.
      rewrite length_take_le in Hl by lia. lia.
    - destruct (Hmem2 g' Hg') as (Hge & _). lia. }
  split_and!; [done| |].
  - apply Hout; [done|]. intros (g' & Heq & Hg')%list_elem_of_fmap.
    by apply (Hnot g').
  - rewrite Hc. by apply lookup_replicate_2.
Qed.

Lemma plan_leaves_out i g p :
  gpus !! i = Some g →
  FreeMemory g < threshold sz (overheadAt sz gpus i) g (layerSize0 sz) →
  plan gpus = Some p →
  untouched i (final p).
Proof.
  intros Hi Hlow (st0 & st1 & st2 & al & H0 & H1 & H2 & Hal & -> & _)%plan_Some.
  assert (untouched i st2) as (Hws & Ha & Hc).
  { apply (plan_keeps _ _ st0 st1 st2 _ _ _ _ (move_untouched i) H1 H2).
    by eapply eligible_leaves_out. }
  apply graphLoop_spec in Hal as (_ & _ & Hin); [|apply NoDup_seq].
  split_and!; [done| |done]. simpl.
  rewrite (Hin i 0 0); [done| |done..].
  apply elem_of_seq. apply lookup_lt_Some in Hi. lia.
Qed.

(** *** No device is charged more than it has (no sum wrapping) *)

#[local] Abbreviation budget := (budget sz gpus).

Hypothesis sizes_modest : modestSizes gpus ggml sz.

Lemma modest_device k d :
  gpus !! k = Some d → modest (FreeMemory d) ∧ modest (MinimumMemory d).
Proof.
  intros Hk. destruct sizes_modest as (Hg & _).
  by apply (Forall_lookup_1 _ _ _ _ Hg Hk).
Qed.

Lemma modest_maxGraph : modest (maxGraph sz).
Proof.
  destruct sizes_modest as (_ & _ & Hp & Hf & _). unfold maxGraph, modest in *. lia.
Qed.

Lemma modest_perLayer l : perLayerSizes ggml sz l → modest l.
Proof.
  intros (i & b & q & Hb & Hq & ->).
  destruct sizes_modest as (_ & _ & _ & _ & _ & _ & Hm).
  unfold udiv in Hq. case_decide; [done|]. inversion Hq; subst.
  apply (Hm _ _ Hb).
Qed.

Lemma move_budget st st' : move st st' → budget st → budget st'.
Proof.
  destruct 1 as [st l w Hl|st ws Hsub|st g a size st' Hg Ha Hfit Hsz Hp];
    intros (Hls & Hdev & Hin & Hws & Hcs & Hsome).
  - split_and!; try done. simpl. destruct Hl as [->|Hl]; [done|].
    by apply modest_perLayer.
  - split_and!; try done; simpl.
    + intros g Hg. by apply Hdev, Hsub.
    + intros g a Hg. by apply Hws, Hsub.
  - pose proof (Hdev g Hg) as Hd.
    destruct (modest_device _ _ Hd) as (Hfree & _).
    pose proof modest_maxGraph as Hmax.
    pose proof (Hin _ _ _ Hd Ha) as Hrange.
    destruct (Hws _ _ Hg Ha) as (Hlow & _).
    assert (Hsize : modest size).
    { destruct Hsz as [->| ->]; [done|]. apply sizes_modest. }
    unfold modest in *.
    rewrite (uadd_exact a) in Hfit by lia. rewrite uadd_exact in Hfit by lia.
    apply place_Some in Hp as (a' & c & Ha' & Hc & ->).
    rewrite Ha in Ha'. inversion Ha'; subst a'. rewrite uadd_exact by lia.
    assert (Hlt : (gs_i g < length (gpuAllocations st))%nat) by by eapply lookup_lt_Some.
    assert (Hltc : (gs_i g < length (layerCounts st))%nat) by by eapply lookup_lt_Some.
    split_and!; simpl; [done|done|..].
    + intros k d a' Hk Hlook.
      destruct (decide (k = gs_i g)) as [->|Hne].
      * rewrite list_lookup_insert_eq in Hlook by done. rewrite Hd in Hk.
        inversion Hlook; inversion Hk; subst. lia.
      * rewrite list_lookup_insert_ne in Hlook by done. by eapply Hin.
    + intros g' a' Hg' Hlook.
      destruct (decide (gs_i g' = gs_i g)) as [Heq|Hne].
      * rewrite Heq in Hlook. rewrite list_lookup_insert_eq in Hlook by done.
        pose proof (Hdev g' Hg') as Hd'. rewrite Heq, Hd in Hd'.
        inversion Hlook; inversion Hd'; subst. lia.
      * rewrite list_lookup_insert_ne in Hlook by done. by eapply Hws.
    + intros k d a' c' Hk Hlook Hc' Hpos.
      destruct (decide (k = gs_i g)) as [->|Hne].
      * rewrite list_lookup_insert_eq in Hlook by done. rewrite Hd in Hk.
        inversion Hlook; inversion Hk; subst. lia.
      * rewrite list_lookup_insert_ne in Hlook, Hc' by done. by eapply Hcs.
    + intros _. exists (gs_i g), (a + size).
      split; [by apply list_lookup_insert_eq|lia].
Qed.

(** an eligible device keeps room for the graph and for one more layer *)
Lemma eligible_room st0 g :
  eligible sz gpus = Some st0 → g ∈ gpusWithSpace st0 →
  ∃ a, gpuAllocations st0 !! gs_i g = Some a ∧
    layerSize0 sz ≤ a ∧ a + maxGraph sz + layerSize0 sz ≤ FreeMemory (gs_g g).
Proof.
  intros H0 Hg.
  pose proof (eligible_spec _ _ _ H0) as (_ & _ & _ & _ & _ & Hdev & _ & Hhd & Htl).
  destruct (modest_device _ _ (Hdev g Hg)) as (Hfree & Hmin).
  pose proof modest_maxGraph as Hmax.
  destruct sizes_modest as (_ & Hp & _ & _ & Hl0 & _).
  unfold threshold, gpuZeroOverhead, modest in *.
  destruct (decide (head (gpusWithSpace st0) = Some g)) as [Hh|Hh].
  - destruct (Hhd g Hh) as (Htest & ->). eexists. split; [done|].
    rewrite (umul_exact 2) in Htest by lia.
    rewrite (uadd_exact (projectorSize sz)) in Htest by lia.
    rewrite (uadd_exact (_ + _) (MinimumMemory _)) in Htest by lia.
    rewrite uadd_exact in Htest by lia.
    rewrite (uadd_exact (MinimumMemory _)) by lia.
    rewrite (uadd_exact 0) by lia. rewrite uadd_exact by lia. lia.
  - destruct (Htl g Hg Hh) as (Htest & ->). eexists. split; [done|].
    rewrite (umul_exact 2) in Htest by lia.
    rewrite (uadd_exact 0) in Htest by lia.
    rewrite (uadd_exact (_ + _) (MinimumMemory _)) in Htest by lia.
    rewrite uadd_exact in Htest by lia.
    rewrite (uadd_exact (MinimumMemory _)) by lia.
    rewrite (uadd_exact 0) by lia. lia.
Qed.

Lemma eligible_budget st0 : eligible sz gpus = Some st0 → budget st0.
Proof.
  intros H0.
  pose proof (eligible_spec _ _ _ H0) as (Hl & Hzero & Hc & Hlen & _ & Hdev & Hout & _).
  destruct sizes_modest as (_ & _ & _ & _ & Hl0 & _). unfold modest in Hl0.
  pose proof modest_maxGraph as Hmax. unfold modest in Hmax.
  split_and!.
  - by rewrite Hl.
  - done.
  - intros k d a Hk Ha.
    destruct (decide (k ∈ gs_i <$> gpusWithSpace st0)) as [Hin|Hnot].
    + apply list_elem_of_fmap in Hin as (g & -> & Hg).
      destruct (eligible_room _ _ H0 Hg) as (a' & Ha' & Hpos & Hroom).
      rewrite (Hdev g Hg) in Hk. rewrite Ha in Ha'.
      inversion Hk; inversion Ha'; subst. lia.
    + rewrite Hout in Ha; [|by eapply lookup_lt_Some|done]. inversion Ha; subst.
      destruct (modest_device _ _ Hk) as (Hfree & _). unfold modest in Hfree. lia.
  - intros g a Hg Ha.
    destruct (eligible_room _ _ H0 Hg) as (a' & Ha' & Hpos & Hroom).
    rewrite Ha in Ha'. inversion Ha'; subst. lia.
  - intros k d a c _ _ Hck Hpos. rewrite Hc in Hck.
    apply lookup_replicate in Hck as (-> & _). lia.
  - by rewrite Hzero.
Qed.

Lemma plan_within_free p k d a :
  plan gpus = Some p →
  gpus !! k = Some d → gpuAllocations (final p) !! k = Some a →
  0 ≤ a ≤ FreeMemory d.
Proof.
  intros (st0 & st1 & st2 & al & H0 & H1 & H2 & Hal & -> & _)%plan_Some Hk Ha.
  simpl in Ha.
  assert (budget st2) as (_ & _ & Hin & _ & Hcs & _).
  { apply (plan_keeps _ _ st0 st1 st2 _ _ _ _ move_budget H1 H2).
    by apply eligible_budget. }
  assert (shaped (length gpus) st2) as (Hlc & Hla & _).
  { apply (plan_keeps _ _ st0 st1 st2 _ _ _ _ (move_shaped ggml sz _) H1 H2).
    by apply (eligible_shaped sz). }
  pose proof (lookup_lt_Some _ _ _ Hk) as Hlt.
  destruct (lookup_lt_is_Some_2 (gpuAllocations st2) k) as [a2 Ha2]; [lia|].
  destruct (lookup_lt_is_Some_2 (layerCounts st2) k) as [c Hc]; [lia|].
  apply graphLoop_spec in Hal as (_ & _ & Hch); [|apply NoDup_seq].
  rewrite (Hch k a2 c) in Ha; [|apply elem_of_seq; lia|done..].
  inversion Ha; subst. pose proof (Hin _ _ _ Hk Ha2) as Hr.
  case_decide; [done|]. pose proof (Hcs _ _ _ _ Hk Ha2 Hc) as Hroom.
  destruct (modest_device _ _ Hk) as (Hfree & _).
  destruct sizes_modest as (_ & _ & Hp & Hf & _).
  assert (0 ≤ graphOf sz (fullyLoaded p) ≤ maxGraph sz) as Hg.
  { unfold graphOf, maxGraph, modest in *. destruct (fullyLoaded p); lia. }
  unfold modest in *. rewrite uadd_exact by lia. lia.
Qed.

Lemma plan_length p :
  plan gpus = Some p → length (gpuAllocations (final p)) = length gpus.
Proof.
  intros (st0 & st1 & st2 & al & H0 & H1 & H2 & Hal & -> & _)%plan_Some. simpl.
  apply graphLoop_spec in Hal as (-> & _); [|apply NoDup_seq].
  assert (shaped (length gpus) st2) as (_ & Hlen & _); [|done].
  apply (plan_keeps _ _ st0 st1 st2 _ _ _ _ (move_shaped ggml sz _) H1 H2).
  by apply (eligible_shaped sz).
Qed.

Lemma total_lookup_le l k a :
  Forall (λ x, 0 ≤ x) l → l !! k = Some a → a ≤ total l.
Proof.
  intros Hl. revert k. induction Hl as [|x l Hx Hl IH]; intros k Hk; [done|].
  pose proof (proj2 (Forall_lookup (λ x, 0 ≤ x) l)) as Hall.
  assert (0 ≤ total l).
  { clear -Hl. induction Hl; simpl; lia. }
  destruct k as [|k]; simpl in *.
  - inversion Hk; subst. lia.
  - specialize (IH k Hk). lia.
Qed.

Lemma total_pointwise l1 l2 : Forall2 Z.le l1 l2 → total l1 ≤ total l2.
Proof. induction 1; simpl; lia. Qed.

(** the allocations add up to no more than the free memory of the group *)
Lemma plan_total_bound p :
  plan gpus = Some p →
  0 ≤ total (gpuAllocations (final p)) ≤ total (FreeMemory <$> gpus).
Proof.
  intros Hp. split.
  - apply total_u64s. by eapply plan_u64s.
  - apply total_pointwise. apply Forall2_same_length_lookup_2.
    + rewrite length_fmap. by apply plan_length.
    + intros k a f Ha Hf. rewrite list_lookup_fmap in Hf.
      destruct (gpus !! k) as [d|] eqn:Hk; [|done]. inversion Hf; subst.
      by apply (plan_within_free p k d a).
Qed.

(** once a layer is placed some device is charged a layer buffer at least *)
Lemma plan_some_charge p :
  plan gpus = Some p → layerCount (final p) ≠ 0 →
  ∃ k a, gpuAllocations (final p) !! k = Some a ∧ layerSize0 sz ≤ a.
Proof.
  intros Hp Hne.
  pose proof (plan_length p Hp) as Hlen.
  pose proof (λ k d a, plan_within_free p k d a Hp) as Hfin.
  apply plan_Some in Hp as (st0 & st1 & st2 & al & H0 & H1 & H2 & Hal & Hf & _).
  rewrite Hf in *. simpl in *.
  assert (budget st2) as (_ & _ & Hin & _ & Hcs & Hsome).
  { apply (plan_keeps _ _ st0 st1 st2 _ _ _ _ move_budget H1 H2).
    by apply eligible_budget. }
  destruct (Hsome Hne) as (k & a & Ha & Hlow).
  assert (Hk : (k < length gpus)%nat).
  { apply lookup_lt_Some in Ha.
    apply graphLoop_spec in Hal as (Hl & _); [|apply NoDup_seq]. lia. }
  destruct (lookup_lt_is_Some_2 gpus k Hk) as [d Hd].
  destruct (lookup_lt_is_Some_2 al k) as [a' Ha']; [lia|].
  exists k, a'. split; [done|].
  assert (shaped (length gpus) st2) as (Hlc & _).
  { apply (plan_keeps _ _ st0 st1 st2 _ _ _ _ (move_shaped ggml sz _) H1 H2).
    by apply (eligible_shaped sz). }
  destruct (lookup_lt_is_Some_2 (layerCounts st2) k) as [c Hc]; [lia|].
  apply graphLoop_spec in Hal as (_ & _ & Hch); [|apply NoDup_seq].
  rewrite (Hch k a c) in Ha'; [|apply elem_of_seq; lia|done..].
  inversion Ha'; subst. case_decide; [done|].
  pose proof (Hcs _ _ _ _ Hd Ha Hc) as Hroom.
  destruct (modest_device _ _ Hd) as (Hfree & _).
  destruct sizes_modest as (_ & _ & Hpg & Hfg & _).
  pose proof (Hin _ _ _ Hd Ha) as Hr.
  assert (0 ≤ graphOf sz (fullyLoaded p) ≤ maxGraph sz) as Hg.
  { unfold graphOf, maxGraph, modest in *. destruct (fullyLoaded p); lia. }
  unfold modest in *. rewrite uadd_exact by lia. lia.
Qed.

(** *** After the block loop *)

Lemma iter_uadd k l : Nat.iter k (λ o, o +u l) 0 = wrap64 (Z.of_nat k * l).
Proof.
  induction k as [|k IH]; [done|].
  rewrite Nat.iter_succ, IH, uadd_mod. f_equal. lia.
Qed.

Lemma blockCount_small :
  0 < BlockCount ggml < 2 ^ 63 - 1 → blockCount ggml = BlockCount ggml.
Proof. intros Hb. apply to_int_small. lia. Qed.

(** when the loop ends every block is placed, or the cap was met, or no
    device is left *)
Lemma blocks_front st0 st1 :
  0 < BlockCount ggml < 2 ^ 63 - 1 →
  eligible sz gpus = Some st0 →
  blockLoop ggml opts sz (blockRange ggml) st0 = Some st1 →
  front opts (BlockCount ggml) st1.
Proof.
  intros Hb H0 H1.
  pose proof (blockRange_front ggml opts sz st0 st1) as Hf.
  rewrite (blockCount_small Hb), Z2Nat.id in Hf by lia.
  apply Hf; [unfold is_u64; lia| |done].
  by apply eligible_spec in H0 as (_ & ? & _).
Qed.

Lemma blocksOverflow_spec st :
  blocksOverflow ggml st =
  if decide (blockCount ggml ≤ layerCount st) then (true, 0)
  else (false, wrap64 ((blockCount ggml - layerCount st) * layerSize st)).
Proof.
  unfold blocksOverflow. case_decide; [done|].
  rewrite iter_uadd, Z2Nat.id by lia. done.
Qed.

(** The head stage when the head is attempted: it fails and the head goes
    to the overflow, or every block was placed and the head is one more
    layer. *)
Lemma headStage_attempt st1 full0 over0 st2 full over :
  0 < BlockCount ggml < 2 ^ 63 - 1 →
  front opts (BlockCount ggml) st1 →
  0 < memoryLayerOutput sz →
  NumGPU opts < 0 ∨ layerCount st1 < NumGPU opts →
  headStage ggml opts sz st1 full0 over0 = Some (st2, full, over) →
  (st2 = st1 ∧ full = false ∧ over = over0 +u memoryLayerOutput sz) ∨
  (layerCount st1 = BlockCount ggml ∧ layerCount st2 = BlockCount ggml + 1 ∧
   full = full0 ∧ over = over0 ∧
   ∃ g a, g ∈ gpusWithSpace st1 ∧ gpuAllocations st1 !! gs_i g = Some a ∧
     gpuAllocations st2 = <[gs_i g := a +u memoryLayerOutput sz]> (gpuAllocations st1)).
Proof.
  intros Hb (Hr & Hf) Hpos Hcap H. unfold headStage in H.
  rewrite decide_True in H by done. bind_inv H st' Hp.
  rewrite (blockCount_small Hb), (iadd_exact (BlockCount ggml) 1) in H by lia.
  apply placeHead_cases in Hp as [(g & a & Hg & Ha & Hfit & Hp)| ->].
  - right.
    assert (layerCount st1 = BlockCount ggml) as Hall.
    { destruct Hf as [?|[Hnil|Hc]]; [done|..].
      - rewrite Hnil in Hg. by apply elem_of_nil in Hg.
      - unfold capped in Hc. lia. }
    apply place_Some in Hp as (a' & c & Ha' & _ & ->). simpl in H.
    rewrite Ha in Ha'. inversion Ha'; subst a'.
    rewrite Hall, iadd_exact in H by lia.
    rewrite decide_False in H by lia. inversion H; subst; simpl.
    split_and!; try done. by exists g, a.
  - left. rewrite decide_True in H by lia. by inversion H.
Qed.

(** The overflow is zero exactly at the full count (sizes positive and
    not wrapping). *)
Lemma plan_overflow p :
  plan gpus = Some p →
  0 < BlockCount ggml < 2 ^ 63 - 1 →
  0 < layerSize (final p) →
  0 ≤ memoryLayerOutput sz →
  BlockCount ggml * layerSize (final p) + memoryLayerOutput sz < 2 ^ 64 →
  0 ≤ overflow p ≤ BlockCount ggml * layerSize (final p) + memoryLayerOutput sz ∧
  (overflow p = 0 ↔ layerCount (final p) = fullCount ggml opts sz).
Proof.
  intros (st0 & st1 & st2 & al & H0 & H1 & H2 & Hal & Hf & _)%plan_Some
    Hb Hls Hhead Hfit.
  pose proof (blocks_front st0 st1 Hb H0 H1) as Hfront.
  rewrite Hf in *. simpl in *.
  assert (Hsame : layerSize st2 = layerSize st1).
  { unfold headStage in H2. case_decide; [|by inversion H2].
    bind_inv H2 st' Hp.
    assert (layerSize st' = layerSize st1) as Hl.
    { apply placeHead_cases in Hp as [(g & a & _ & _ & _ & Hp)| ->]; [|done].
      by apply place_fields in Hp as (_ & ? & _). }
    case_decide; by inversion H2; subst. }
  rewrite Hsame in *.
  pose proof (blocksOverflow_spec st1) as Hover.
  rewrite (blockCount_small Hb) in Hover.
  destruct Hfront as (Hr & Hfr).
  assert (Hblocks : 0 ≤ (BlockCount ggml - layerCount st1) * layerSize st1
                    ≤ BlockCount ggml * layerSize st1) by nia.
  unfold fullCount.
  destruct (decide (0 < memoryLayerOutput sz ∧
                    (NumGPU opts < 0 ∨ layerCount st1 < NumGPU opts)))
    as [[Hpos Hcap]|Hnot].
  - apply headStage_attempt in H2
      as [(-> & _ & ->)|(Hall & Hc & _ & -> & _)]; [| |done..].
    + rewrite Hover. case_decide as Hfull; simpl.
      * rewrite uadd_exact by lia. split; [lia|]. split; [lia|].
        case_decide; lia.
      * rewrite wrap64_small by (unfold is_u64; lia).
        rewrite uadd_exact by lia. split; [lia|]. split; [lia|].
        case_decide; lia.
    + rewrite Hover, decide_True by lia. simpl. split; [lia|].
      split; [intros _|done]. rewrite Hc. rewrite decide_True; [done|].
      split; [done|]. lia.
  - unfold headStage in H2. rewrite decide_False in H2 by done.
    inversion H2; subst. rewrite Hover. case_decide as Hfull; simpl.
    + split; [lia|]. split; [intros _|done].
      assert (layerCount st2 = BlockCount ggml) as Heq by lia.
      rewrite Heq. rewrite decide_False; [done|].
      intros [Hpos Hcap]. apply Hnot. split; [done|]. lia.
    + rewrite wrap64_small by (unfold is_u64; lia). split; [lia|].
      split; [nia|]. case_decide; lia.
Qed.

End Plans.

(** ** One device, more free memory *)

Section OneDevice.

Variable ggml : GGML.
Variable opts : Options.
Variable sz : Sizes.
Variables g g' : GpuInfo.
Hypothesis same_minimum : MinimumMemory g' = MinimumMemory g.
Hypothesis more_free : FreeMemory g ≤ FreeMemory g'.

#[local] Abbreviation lockstep := (lockstep g g').
#[local] Abbreviation behind := (behind g g').

Lemma eligible_behind st st' :
  eligible sz [g] = Some st → eligible sz [g'] = Some st' → behind st st'.
Proof.
  unfold eligible. simpl. unfold threshold. rewrite same_minimum.
  set (t := gpuZeroOverhead sz +u maxGraph sz +u MinimumMemory g +u 2 *u layerSize0 sz).
  intros H H'.
  destruct (decide (FreeMemory g < t)) as [Hlow|Hok]; simpl in H.
  - inversion H; subst.
    destruct (decide (FreeMemory g' < t)); simpl in H'; inversion H'; subst;
      (split; [done|]); left; by split.
  - rewrite decide_False in H' by lia. simpl in H'.
    inversion H; inversion H'; subst. split; [done|]. right. by repeat split.
Qed.

Lemma sizeBlock_same_size i st st' s s' :
  layerSize st = layerSize st' →
  sizeBlock ggml sz i st = Some s → sizeBlock ggml sz i st' = Some s' →
  layerSize s = layerSize s' ∧ s = withSizes (layerSize s) (memoryWeights s) st ∧
  s' = withSizes (layerSize s') (memoryWeights s') st'.
Proof.
  unfold sizeBlock. intros Hl H H'. rewrite Hl in H.
  destruct (match TensorLayers ggml !! blk i with
            | Some b => _ | None => _ end) as [l|]; [|done].
  simpl in *. inversion H; inversion H'; subst. done.
Qed.

Lemma placeBlock_lockstep i st st' s s' :
  lockstep st st' → layerSize st = layerSize st' →
  0 ≤ layerCount st' → layerCount st' + 1 < 2 ^ 63 →
  placeBlock sz 1 i st = Some s → placeBlock sz 1 i st' = Some s' →
  behind s s'.
Proof.
  intros (Hc & Ha & Hcs & Hw & Hw') Hl Hpos Hsmall H H'. simpl in H, H'.
  rewrite Nat.mod_1_r in H, H'. rewrite Hw in H. rewrite Hw' in H'.
  simpl in H, H'. rewrite <- Ha, <- Hl in H'.
  destruct (gpuAllocations st !! 0%nat) as [a|] eqn:Hlook; [|done].
  simpl in H, H'. unfold dropDevice in H, H'. rewrite Hw in H. rewrite Hw' in H'.
  simpl in H, H'.
  repeat case_decide; try lia.
  - apply place_Some in H as (a1 & c1 & Ha1 & Hc1 & ->).
    apply place_Some in H' as (a2 & c2 & Ha2 & Hc2 & ->). simpl in *.
    rewrite <- Ha, Ha1 in Ha2. rewrite <- Hcs, Hc1 in Hc2.
    inversion Ha2; inversion Hc2; subst.
    split; [done|]. right. repeat split; simpl; congruence.
  - inversion H; subst.
    apply place_fields in H' as (Hc' & Hl' & _). simpl.
    split; [by rewrite Hl'|]. left. split; [done|].
    rewrite Hc', iadd_exact by lia. simpl. lia.
  - inversion H; inversion H'; subst. split; [done|]. left. split; [done|simpl; lia].
Qed.

Lemma blockStep_behind i st st' s s' :
  behind st st' →
  0 ≤ layerCount st' ≤ Z.of_nat i → Z.of_nat i + 1 < 2 ^ 63 →
  blockStep ggml opts sz i st = Some s → blockStep ggml opts sz i st' = Some s' →
  behind s s' ∧ 0 ≤ layerCount s' ≤ Z.of_nat (S i).
Proof.
  intros (Hl & Hcase) Hr Hsmall H H'.
  assert (Hcount : 0 ≤ layerCount s' ≤ Z.of_nat (S i) ∧ layerCount st' ≤ layerCount s').
  { destruct (blockStep_count _ _ _ _ _ _ H') as (_ & [(Hc & _)|(Hc & _)]).
    - lia.
    - rewrite iadd_exact in Hc by lia. lia. }
  split; [|apply Hcount].
  unfold blockStep in H, H'. bind_inv H st1 H1. bind_inv H' st1' H1'.
  destruct (sizeBlock_same_size _ _ _ _ _ Hl H1 H1') as (Hl1 & Hst1 & Hst1').
  assert (Hf1 : gpusWithSpace st1 = gpusWithSpace st ∧ layerCount st1 = layerCount st ∧
                gpuAllocations st1 = gpuAllocations st ∧ layerCounts st1 = layerCounts st)
    by (by rewrite Hst1).
  assert (Hf1' : gpusWithSpace st1' = gpusWithSpace st' ∧
                 layerCount st1' = layerCount st' ∧
                 gpuAllocations st1' = gpuAllocations st' ∧
                 layerCounts st1' = layerCounts st')
    by (by rewrite Hst1').
  clear Hst1 Hst1'.
  destruct Hf1 as (Hw1 & Hc1 & Ha1 & Hcs1). destruct Hf1' as (Hw1' & Hc1' & Ha1' & Hcs1').
  destruct Hcase as [(Hnil & Hle)|(Hc & Ha & Hcs & Hw & Hw')].
  - assert (s = st1) as ->.
    { rewrite Hw1, Hnil in H. simpl in H.
      destruct (decide (0 ≤ NumGPU opts ≤ layerCount st1)); by inversion H. }
    assert (layerSize s' = layerSize st1') as Hls'.
    { destruct (decide (0 ≤ NumGPU opts ≤ layerCount st1')); [by inversion H'|].
      apply placeBlock_cases in H'; [|done].
      destruct H' as [(ws & d & a & _ & _ & _ & _ & Hp)| ->]; [|done].
      by apply place_fields in Hp as (_ & ? & _). }
    split; [congruence|]. left. split; [congruence|]. lia.
  - assert (Hlock1 : lockstep st1 st1') by (repeat split; congruence).
    assert (Hcc : layerCount st1 = layerCount st1') by congruence.
    rewrite Hcc in H. case_decide.
    + inversion H; inversion H'; subst. by split; [|right].
    + rewrite Hw1, Hw in H. rewrite Hw1', Hw' in H'. simpl in H, H'.
      apply (placeBlock_lockstep i st1 st1'); try done; lia.
Qed.

Lemma blockLoop_behind m a st st' s s' :
  behind st st' →
  0 ≤ layerCount st' ≤ Z.of_nat a → Z.of_nat (a + m) < 2 ^ 63 →
  blockLoop ggml opts sz (seq a m) st = Some s →
  blockLoop ggml opts sz (seq a m) st' = Some s' →
  behind s s' ∧ 0 ≤ layerCount s' ≤ Z.of_nat (a + m).
Proof.
  revert a st st'. induction m as [|m IH]; intros a st st' Hb Hr Hsmall H H'; simpl in *.
  - inversion H; inversion H'; subst. split; [done|]. lia.
  - bind_inv H st1 H1. bind_inv H' st1' H1'.
    destruct (blockStep_behind a st st' st1 st1' Hb Hr) as (Hb1 & Hr1); [lia|done..|].
    replace (a + S m)%nat with (S a + m)%nat by lia.
    apply (IH (S a) st1 st1'); try done. lia.
Qed.

Lemma placeHead_count j st s :
  placeHead sz j st = Some s →
  layerCount s = layerCount st ∨ layerCount s = layerCount st +i 1.
Proof.
  intros [(d & a & _ & _ & _ & Hp)| ->]%placeHead_cases; [|by left].
  right. by apply place_fields in Hp as (? & _).
Qed.

Lemma headStage_behind st st' full over full' over' r r' :
  behind st st' →
  0 ≤ layerCount st' → layerCount st' + 1 < 2 ^ 63 →
  headStage ggml opts sz st full over = Some r →
  headStage ggml opts sz st' full' over' = Some r' →
  layerCount r.1.1 ≤ layerCount r'.1.1.
Proof.
  intros (Hl & Hcase) Hpos Hsmall H H'.
  assert (Hup : layerCount st' ≤ layerCount r'.1.1).
  { unfold headStage in H'.
    destruct (decide (0 < memoryLayerOutput sz ∧
                      (NumGPU opts < 0 ∨ layerCount st' < NumGPU opts)));
      [|inversion H'; subst; simpl; lia].
    bind_inv H' s1 Hp. apply placeHead_count in Hp as [Hc|Hc].
    - destruct (decide (layerCount s1 < blockCount ggml +i 1));
        inversion H'; subst; simpl; lia.
    - rewrite iadd_exact in Hc by lia.
      destruct (decide (layerCount s1 < blockCount ggml +i 1));
        inversion H'; subst; simpl; lia. }
  destruct Hcase as [(Hnil & Hle)|(Hc & Ha & Hcs & Hw & Hw')].
  - assert (layerCount r.1.1 = layerCount st) as ->; [|lia].
    unfold headStage in H. rewrite Hnil in H. simpl in H.
    destruct (decide (0 < memoryLayerOutput sz ∧
                      (NumGPU opts < 0 ∨ layerCount st < NumGPU opts)));
      [|by inversion H].
    destruct (decide (layerCount st < blockCount ggml +i 1)); by inversion H.
  - unfold headStage in H, H'. rewrite Hc, Hw in H. rewrite Hw' in H'.
    destruct (decide (0 < memoryLayerOutput sz ∧
                      (NumGPU opts < 0 ∨ layerCount st' < NumGPU opts)))
      as [Hcons|Hcons].
    2:{ inversion H; inversion H'; subst; simpl. lia. }
    simpl in H, H'. rewrite Z.rem_1_r in H, H'. unfold index in H, H'.
    simpl in H, H'. rewrite Hw in H. rewrite Hw' in H'. simpl in H, H'.
    rewrite <- Ha in H'.
    destruct (gpuAllocations st !! 0%nat) as [a|] eqn:Hlook; [|done].
    simpl in H, H'.
    destruct (decide (a +u maxGraph sz +u memoryLayerOutput sz < FreeMemory g))
      as [Hfit|Hfit].
    + rewrite decide_True in H' by lia.
      bind_inv H s1 Hp. bind_inv H' s1' Hp'.
      apply place_fields in Hp as (Hc1 & _). apply place_fields in Hp' as (Hc1' & _).
      assert (layerCount r.1.1 = layerCount s1) as ->.
      { destruct (decide (layerCount s1 < blockCount ggml +i 1)); by inversion H. }
      assert (layerCount r'.1.1 = layerCount s1') as ->.
      { destruct (decide (layerCount s1' < blockCount ggml +i 1)); by inversion H'. }
      rewrite Hc1, Hc1', Hc. lia.
    + assert (layerCount r.1.1 = layerCount st') as ->; [|lia].
      simpl in H. rewrite <- Hc.
      destruct (decide (layerCount st < blockCount ggml +i 1)); by inversion H.
Qed.

(** the plan of the device with more free memory has at least as many
    layers *)
Lemma plan_one_device p p' :
  0 < BlockCount ggml < 2 ^ 63 - 1 →
  plan ggml opts sz [g] = Some p → plan ggml opts sz [g'] = Some p' →
  layerCount (final p) ≤ layerCount (final p').
Proof.
  intros Hb (st0 & st1 & st2 & al & H0 & H1 & H2 & _ & -> & _)%plan_Some
    (st0' & st1' & st2' & al' & H0' & H1' & H2' & _ & -> & _)%plan_Some.
  simpl.
  pose proof (eligible_behind _ _ H0 H0') as Hb0.
  assert (layerCount st0' = 0) as Hz by (by apply eligible_spec in H0' as (_ & ? & _)).
  unfold blockRange in H1, H1'. rewrite (blockCount_small _ Hb) in H1, H1'.
  destruct (blockLoop_behind (Z.to_nat (BlockCount ggml)) 0 st0 st0' st1 st1' Hb0)
    as (Hb1 & Hr1); [simpl; lia|simpl; lia|done..|].
  simpl in Hr1. rewrite Z2Nat.id in Hr1 by lia.
  assert (0 ≤ layerCount st1') as Hpos by lia.
  assert (layerCount st1' + 1 < 2 ^ 63) as Hsmall by lia.
  exact (headStage_behind st1 st1' _ _ _ _ _ _ Hb1 Hpos Hsmall H2 H2').
Qed.

End OneDevice.

Lemma sizes_one_device pmr ggml opts g g' projectors :
  Library g' = Library g →
  sizes pmr ggml opts [g'] projectors = sizes pmr ggml opts [g] projectors.
Proof. intros Hl. unfold sizes. simpl. by rewrite Hl. Qed.

(** ** Counting the placed layers *)

Section Counts.

Variable ggml : GGML.
Variable opts : Options.
Variable sz : Sizes.

(** the head stage adds at most one layer, and only when the head is
    attempted; it leaves the device list alone *)
Lemma headStage_count st full over st2 full2 over2 :
  headStage ggml opts sz st full over = Some (st2, full2, over2) →
  gpusWithSpace st2 = gpusWithSpace st ∧
  (layerCount st2 = layerCount st ∨
   (layerCount st2 = layerCount st +i 1 ∧ 0 < memoryLayerOutput sz ∧
    (NumGPU opts < 0 ∨ layerCount st < NumGPU opts))).
Proof.
  unfold headStage. intros H.
  destruct (decide (0 < memoryLayerOutput sz ∧
                    (NumGPU opts < 0 ∨ layerCount st < NumGPU opts)))
    as [[Hpos Hcap]|Hnot]; [|inversion H; subst; by split; [|left]].
  bind_inv H s1 Hp.
  assert (st2 = s1) as ->.
  { destruct (decide (layerCount s1 < blockCount ggml +i 1)); by inversion H. }
  apply placeHead_cases in Hp as [(d & a & _ & _ & _ & Hp)| ->]; [|by split; [|left]].
  apply place_fields in Hp as (Hc & _ & Hw & _). split; [done|]. by right.
Qed.

Lemma blockLoop_cap blocks st st' :
  0 ≤ NumGPU opts < 2 ^ 63 → 0 ≤ layerCount st ≤ NumGPU opts →
  blockLoop ggml opts sz blocks st = Some st' →
  0 ≤ layerCount st' ≤ NumGPU opts.
Proof.
  intros Hn. revert st. induction blocks as [|i blocks IH]; intros st Hr H; simpl in H.
  - by inversion H; subst.
  - bind_inv H st1 H1. apply (IH st1); [|done].
    apply blockStep_count in H1 as (_ & [(Hc & _)|(Hc & Hncap & _)]); [lia|].
    unfold capped in Hncap. rewrite iadd_exact in Hc by lia. lia.
Qed.

(** the count the plan ends with, under a requested count *)
Lemma plan_cap gpus p :
  0 ≤ NumGPU opts < 2 ^ 63 →
  plan ggml opts sz gpus = Some p →
  0 ≤ layerCount (final p) ≤ NumGPU opts.
Proof.
  intros Hn (st0 & st1 & st2 & al & H0 & H1 & H2 & _ & -> & _)%plan_Some. simpl.
  assert (layerCount st0 = 0) as Hz by (by apply eligible_spec in H0 as (_ & ? & _)).
  apply blockLoop_cap in H1; [|done|lia].
  apply headStage_count in H2 as (_ & [->|(-> & _ & Hcap)]); [done|].
  rewrite iadd_exact by lia. lia.
Qed.

(** the count the plan ends with, whatever is requested *)
Lemma plan_count_range gpus p :
  0 < BlockCount ggml < 2 ^ 63 - 1 →
  plan ggml opts sz gpus = Some p →
  0 ≤ layerCount (final p) ≤ BlockCount ggml + 1.
Proof.
  intros Hb (st0 & st1 & st2 & al & H0 & H1 & H2 & _ & -> & _)%plan_Some. simpl.
  destruct (blocks_front ggml opts sz gpus st0 st1 Hb H0 H1) as (Hr & _).
  apply headStage_count in H2 as (_ & [->|(-> & _)]); [lia|].
  rewrite iadd_exact by lia. lia.
Qed.

(** without a cap, a block that is not placed means that no device is left *)
Lemma plan_exhausted gpus p :
  0 < BlockCount ggml < 2 ^ 63 - 1 → NumGPU opts < 0 →
  plan ggml opts sz gpus = Some p →
  layerCount (final p) < BlockCount ggml →
  gpusWithSpace (final p) = [].
Proof.
  intros Hb Hauto (st0 & st1 & st2 & al & H0 & H1 & H2 & _ & -> & _)%plan_Some. simpl.
  destruct (blocks_front ggml opts sz gpus st0 st1 Hb H0 H1) as (Hr & Hf).
  apply headStage_count in H2 as (-> & Hc). intros Hlt.
  destruct Hf as [Hall|[Hnil|Hcap]]; [|done|unfold capped in Hcap; lia].
  destruct Hc as [Hc|(Hc & _)]; [lia|]. rewrite iadd_exact in Hc by lia. lia.
Qed.

(** a device that left the list does not come back *)
Lemma plan_devices gpus p st0 :
  eligible sz gpus = Some st0 →
  plan ggml opts sz gpus = Some p →
  gpusWithSpace (final p) ⊆ gpusWithSpace st0.
Proof.
  intros H0 (st0' & st1 & st2 & al & H0' & H1 & H2 & _ & -> & _)%plan_Some. simpl.
  rewrite H0 in H0'. inversion H0'; subst st0'.
  refine (plan_keeps ggml opts sz (λ st, gpusWithSpace st ⊆ gpusWithSpace st0)
            _ st0 st1 st2 _ _ _ _ _ H1 H2 _); [|done].
  intros s s' Hm Hs.
  destruct Hm as [st l w ?|st ws Hsub|st d a size st' Hd Ha Hfit Hsz Hp]; [done|..].
  - simpl. by etrans.
  - apply place_fields in Hp as (_ & _ & -> & _). done.
Qed.

(** *** The per-device counts *)

Lemma total_insert l k c c' :
  l !! k = Some c → total (<[k := c']> l) = total l - c + c'.
Proof.
  revert k. induction l as [|x l IH]; intros k Hk; [done|].
  destruct k as [|k]; simpl in *.
  - inversion Hk; subst. lia.
  - rewrite (IH k Hk). lia.
Qed.

Lemma place_tallied d size st st' :
  tallied st → layerCount st + 1 < 2 ^ 63 →
  place d size st = Some st' → tallied st'.
Proof.
  intros (Hpos & Hsum) Hsmall (a & c & _ & Hc & ->)%place_Some.
  pose proof (total_lookup_le _ _ _ Hpos Hc) as Hle.
  pose proof (Forall_lookup_1 _ _ _ _ Hpos Hc) as Hc0. simpl in Hc0.
  unfold tallied. simpl.
  rewrite (iadd_exact c), (iadd_exact (layerCount st)) by lia. split.
  - apply Forall_insert; [done|lia].
  - rewrite (total_insert _ _ c) by done. lia.
Qed.

Lemma blockStep_front i st st' :
  front opts (Z.of_nat i) st → Z.of_nat i + 1 < 2 ^ 63 →
  blockStep ggml opts sz i st = Some st' →
  front opts (Z.of_nat (S i)) st'.
Proof.
  intros (Hr & Hf) Hsmall H.
  apply blockStep_count in H as (_ & [(Hc & Hstop)|(Hc & Hncap & Hws)]).
  - split; [lia|]. right. destruct Hstop as [Hcap|Hnil]; [right|by left].
    unfold capped in *. lia.
  - destruct Hf as [Ha|[Hnil|Hcap]]; [|done..].
    rewrite iadd_exact in Hc by lia. split; [lia|left; lia].
Qed.

Lemma blockStep_tallied i st st' :
  tallied st → 0 ≤ layerCount st ≤ Z.of_nat i → Z.of_nat i + 1 < 2 ^ 63 →
  blockStep ggml opts sz i st = Some st' → tallied st'.
Proof.
  intros Ht Hr Hsmall H. unfold blockStep in H. bind_inv H st1 H1.
  apply sizeBlock_Some in H1 as (l & -> & _).
  destruct (decide (0 ≤ NumGPU opts ∧
                    NumGPU opts ≤ layerCount (withSizes l (memoryWeights st +u l) st)));
    [by inversion H; subst|].
  apply placeBlock_cases in H; [|done].
  destruct H as [(ws & d & a & _ & _ & _ & _ & Hp)| ->]; [|done].
  apply (place_tallied d l (withDevices ws (withSizes l (memoryWeights st +u l) st)));
    [done|simpl; lia|done].
Qed.

Lemma blockLoop_tallied m a st st' :
  tallied st → front opts (Z.of_nat a) st → Z.of_nat (a + m) < 2 ^ 63 →
  blockLoop ggml opts sz (seq a m) st = Some st' → tallied st'.
Proof.
  revert a st. induction m as [|m IH]; intros a st Ht Hf Hsmall H; simpl in H.
  - by inversion H; subst.
  - bind_inv H st1 H1. apply (IH (S a) st1); [| |lia|done].
    + apply (blockStep_tallied a st); [done|apply Hf|lia|done].
    + apply (blockStep_front a st); [done|lia|done].
Qed.

Lemma plan_tallied gpus p :
  0 < BlockCount ggml < 2 ^ 63 - 1 →
  plan ggml opts sz gpus = Some p →
  length (layerCounts (final p)) = length gpus ∧ tallied (final p).
Proof.
  intros Hb (st0 & st1 & st2 & al & H0 & H1 & H2 & _ & -> & _)%plan_Some.
  pose proof (blocks_front ggml opts sz gpus st0 st1 Hb H0 H1) as (Hr & _).
  assert (Hs2 : shaped (length gpus) st2).
  { apply (plan_keeps ggml opts sz _ _ st0 st1 st2 _ _ _ _
             (move_shaped ggml sz _) H1 H2).
    by apply (eligible_shaped sz). }
  split; [apply Hs2|].
  assert (Ht1 : tallied st1).
  { pose proof (eligible_spec _ _ _ H0) as (_ & Hz & Hc & _).
    unfold blockRange in H1. rewrite (blockCount_small _ Hb) in H1.
    apply (blockLoop_tallied _ 0 st0 st1) in H1; [done| | |lia].
    - unfold tallied. rewrite Hc, Hz. split.
      + by apply Forall_replicate.
      + clear. induction (length gpus); simpl; lia.
    - split; [simpl; lia|left; by simpl]. }
  unfold tallied. simpl. fold (tallied st2).
  unfold headStage in H2.
  destruct (decide (0 < memoryLayerOutput sz ∧
                    (NumGPU opts < 0 ∨ layerCount st1 < NumGPU opts)));
    [|by inversion H2; subst].
  bind_inv H2 s1 Hp.
  assert (st2 = s1) as ->.
  { destruct (decide (layerCount s1 < blockCount ggml +i 1)); by inversion H2. }
  apply placeHead_cases in Hp as [(d & a' & _ & _ & _ & Hp)| ->]; [|done].
  apply (place_tallied d (memoryLayerOutput sz) st1); [done|lia|done].
Qed.

End Counts.

(** ** The sizes fixed before placement, and estimates without layers *)

Lemma projectorLoop_spec pmr projectors x c :
  projectorLoop pmr projectors (wrap64 x, c) =
  (wrap64 (x + total (pmr <$> projectors)),
   match projectors with [] => c | _ => Z.max c 2048 end).
Proof.
  revert x c. induction projectors as [|q rest IH]; intros x c; simpl.
  - by rewrite Z.add_0_r.
  - rewrite uadd_mod, IH. f_equal; [f_equal; symmetry; apply Z.add_assoc|].
    destruct rest; [done|]. lia.
Qed.

Lemma sizes_fields pmr ggml opts gpus projectors sz :
  sizes pmr ggml opts gpus projectors = Some sz →
  ∃ gpu0, gpus !! 0%nat = Some gpu0 ∧ BlockCount ggml ≠ 0 ∧
    projectorSize sz = (projectorLoop pmr projectors (0, NumCtx opts)).1 ∧
    numCtx sz = (projectorLoop pmr projectors (0, NumCtx opts)).2 ∧
    (Library gpu0 = "metal" ∨ (1 < length gpus)%nat →
     graphPartialOffload sz = graphFullOffload sz).
Proof.
  unfold sizes. intros H. bind_inv H gpu0 H0. exists gpu0. split; [done|].
  destruct (projectorLoop pmr projectors (0, NumCtx opts)) as [ps ctx].
  bind_inv H q Hq. unfold udiv in Hq.
  destruct (decide (BlockCount ggml = 0)) as [|Hb]; [done|]. split; [done|].
  destruct (GraphSize ggml _ _) as [gp gf].
  destruct (decide (Library gpu0 = "metal")) as [Hm|Hm].
  - inversion H; subst; simpl. by split_and!.
  - destruct (decide (1 < length gpus)%nat) as [Hl|Hl];
      inversion H; subst; simpl; split_and!; try done.
    intros [?|?]; done.
Qed.

Lemma estimate_without_layers pmr gpus ggml projectors opts e :
  EstimateGPULayers pmr gpus ggml projectors opts = Some e →
  Layers e = 0 →
  VRAMSize e = 0 ∧ GPUSizes e = [] ∧ TensorSplit e = "".
Proof.
  intros (sz & p & _ & _ & Hr)%EstimateGPULayers_Some Hz.
  apply report_Some in Hr
    as (_ & gpu0 & _ & [(_ & _ & ? & ? & ?)|(_ & Hn & HL & _)]); [done|].
  congruence.
Qed.

Lemma fits_needs_a_layer ggml opts : fits ggml opts 0 = false.
Proof.
  unfold fits. case_decide; apply bool_decide_eq_false; lia.
Qed.

Lemma fitLoop_without_layers pmr groupings ggml projectors opts v :
  Forall (λ gpus, ∃ e, EstimateGPULayers pmr gpus ggml projectors opts = Some e ∧
                       Layers e = 0) groupings →
  fitLoop pmr groupings ggml projectors opts v =
  Some (false, match groupings with [] => v | _ => 0 end).
Proof.
  intros Hall. revert v.
  induction Hall as [|gpus rest (e & He & Hz) _ IH]; intros v; simpl; [done|].
  rewrite He. simpl. rewrite Hz, fits_needs_a_layer, IH.
  destruct (estimate_without_layers _ _ _ _ _ _ He Hz) as (-> & _).
  by destruct rest.
Qed.

(** with two listed devices and an even count the head loop looks at the
    first listed device twice and never at the second *)
Lemma placeHead_two sz st g1 g2 a :
  gpusWithSpace st = [g1; g2] →
  0 ≤ layerCount st → Z.even (layerCount st) = true →
  gpuAllocations st !! gs_i g1 = Some a →
  placeHead sz 2 st =
  if decide (a +u maxGraph sz +u memoryLayerOutput sz < FreeMemory (gs_g g1))
  then place g1 (memoryLayerOutput sz) st else Some st.
Proof.
  intros Hw Hpos Heven Ha. cbn [placeHead].
  change (Z.of_nat 2) with 2. change (Z.of_nat 1) with 1.
  assert (Z.rem (layerCount st) 2 = 0) as ->.
  { rewrite Z.rem_mod_nonneg by lia. rewrite Zmod_even, Heven. done. }
  rewrite Z.rem_1_r. unfold index. simpl. rewrite Hw. simpl. rewrite Ha. simpl.
  by case_decide.
Qed.

(** * The claims *)

(** ** Totality *)

(** C10: the estimator reads [gpus[0]] whatever the group is, so it panics
    on an empty device group instead of returning the zero-layer estimate;
    on a non-empty group (and a model whose block count is a non-zero
    uint64, the divisor of line 122) it returns an estimate. *)
Theorem EstimateGPULayers_needs_a_device pmr gpus ggml projectors opts :
  EstimateGPULayers pmr [] ggml projectors opts = None ∧
  (gpus ≠ [] → 0 < BlockCount ggml < 2 ^ 64 →
   is_Some (EstimateGPULayers pmr gpus ggml projectors opts)).
Proof.
  split; [done|]. apply EstimateGPULayers_total.
Qed.

Lemma EstimateGPULayers_needs_a_device_witness :
  [Sample.cuda 100000 100] ≠ [] ∧ 0 < BlockCount Sample.llama < 2 ^ 64 ∧
  is_Some (EstimateGPULayers Sample.projectorCost [Sample.cuda 100000 100]
             Sample.llama ["clip"] Sample.auto).
Proof.
  split; [discriminate|]. split; [settle|].
  refine (proj2 (EstimateGPULayers_needs_a_device Sample.projectorCost
                   [Sample.cuda 100000 100] Sample.llama ["clip"] Sample.auto) _ _).
  - discriminate.
  - settle.
Defined.

(** ** The reported sizes *)

(** C7: the entries of [GPUSizes] add up to [VRAMSize]: the sum the code
    computes is the sum modulo 2^64, and it is the sum itself whenever that
    fits 64 bits. *)
Theorem GPUSizes_add_up_to_VRAMSize pmr gpus ggml projectors opts e :
  EstimateGPULayers pmr gpus ggml projectors opts = Some e →
  VRAMSize e = wrap64 (total (GPUSizes e)) ∧
  (total (GPUSizes e) < 2 ^ 64 → total (GPUSizes e) = VRAMSize e).
Proof.
  intros (sz & p & Hsz & Hp & Hr)%EstimateGPULayers_Some.
  pose proof (plan_u64s _ _ _ _ _ Hp) as Hu.
  apply plan_Some in Hp as (st0 & st1 & st2 & al & _ & _ & _ & _ & Hf & _ & Hv & _).
  apply report_Some in Hr as (_ & gpu0 & _ & [(_ & _ & -> & -> & _)|(_ & _ & _ & -> & -> & _)]).
  - by split.
  - rewrite Hv, Hf in *. simpl in *. rewrite sumAllocations_total.
    split; [done|]. intros Hlt. symmetry. apply wrap64_small.
    split; [by apply total_u64s|done].
Qed.

Lemma GPUSizes_add_up_to_VRAMSize_witness :
  ∃ e, EstimateGPULayers Sample.projectorCost
         [Sample.cuda 100000 100; Sample.cuda 40000 100] Sample.llama ["clip"]
         Sample.auto = Some e ∧
       GPUSizes e = [31822; 23080] ∧ VRAMSize e = 54902 ∧
       VRAMSize e = wrap64 (total (GPUSizes e)) ∧
       (total (GPUSizes e) < 2 ^ 64 → total (GPUSizes e) = VRAMSize e).
Proof.
  eexists. split; [vm_compute; reflexivity|].
  split; [reflexivity|]. split; [reflexivity|].
  refine (GPUSizes_add_up_to_VRAMSize Sample.projectorCost
            [Sample.cuda 100000 100; Sample.cuda 40000 100] Sample.llama ["clip"]
            Sample.auto _ _).
  vm_compute. reflexivity.
Defined.

(** C6, as the code has it: an estimate that places layers ([Layers] is
    non-zero) has one entry of [GPUSizes] per device of the group; the
    zero-layer estimate of lines 292-298 (a cpu group, or nothing placed)
    has none. *)
Theorem GPUSizes_length pmr gpus ggml projectors opts e :
  EstimateGPULayers pmr gpus ggml projectors opts = Some e →
  (Layers e ≠ 0 → length (GPUSizes e) = length gpus) ∧
  (Layers e = 0 → GPUSizes e = []).
Proof.
  intros (sz & p & Hsz & Hp & Hr)%EstimateGPULayers_Some.
  apply plan_Some in Hp as (st0 & st1 & st2 & al & H0 & H1 & H2 & Hal & Hf & _).
  apply report_Some in Hr
    as (_ & gpu0 & _ & [(_ & -> & _ & -> & _)|(_ & Hn & -> & _ & -> & _)]).
  - done.
  - split; [intros _|done]. rewrite Hf. simpl.
    apply graphLoop_spec in Hal as (-> & _); [|apply NoDup_seq].
    assert (shaped (length gpus) st2) as (_ & Hlen & _); [|done].
    apply (plan_keeps _ _ _ _ _ st0 st1 st2 _ _ _ _ (move_shaped ggml sz _) H1 H2).
    by apply (eligible_shaped sz).
Qed.

Lemma GPUSizes_length_witness :
  ∃ e, EstimateGPULayers Sample.projectorCost
         [Sample.cuda 100000 100; Sample.cuda 40000 100] Sample.llama ["clip"]
         Sample.auto = Some e ∧
       (Layers e ≠ 0 → length (GPUSizes e) = 2%nat) ∧
       (Layers e = 0 → GPUSizes e = []).
Proof.
  eexists. split; [vm_compute; reflexivity|].
  refine (GPUSizes_length Sample.projectorCost
            [Sample.cuda 100000 100; Sample.cuda 40000 100] Sample.llama ["clip"]
            Sample.auto _ _).
  vm_compute. reflexivity.
Defined.

(** C6 as stated fails: a cpu group of one device gets an estimate whose
    [GPUSizes] is empty. *)
Lemma GPUSizes_length_cpu_group :
  ∃ e, EstimateGPULayers Sample.projectorCost [Sample.cpu] Sample.llama []
         Sample.auto = Some e ∧
       length (GPUSizes e) ≠ length [Sample.cpu].
Proof. eexists. split; [vm_compute; reflexivity|]. settle. Qed.

(** ** The fit predictor *)

Lemma fits_as_stated ggml opts e :
  0 ≤ BlockCount ggml < 2 ^ 63 - 1 →
  fits ggml opts (Layers e) = true ↔ fitsAsStated ggml opts e.
Proof.
  intros Hb. unfold fits, fitsAsStated.
  rewrite uadd_exact by lia. rewrite to_int_small by lia.
  case_decide; by rewrite bool_decide_eq_true.
Qed.

Section FitLoop.

Variable pmr : string → Z.
Variable ggml : GGML.
Variable projectors : list string.
Variable opts : Options.
Hypothesis block_range : 0 ≤ BlockCount ggml < 2 ^ 63 - 1.

#[local] Abbreviation estimateOf gpus :=
  (EstimateGPULayers pmr gpus ggml projectors opts).

#[local] Abbreviation passedOver := (passedOver pmr ggml projectors opts).

Lemma fitLoop_first_fit pre gpus post e v :
  Forall passedOver pre →
  estimateOf gpus = Some e → fitsAsStated ggml opts e →
  fitLoop pmr (pre ++ gpus :: post) ggml projectors opts v = Some (true, VRAMSize e).
Proof.
  intros Hpre He Hfit. revert v.
  induction Hpre as [|g pre (e' & He' & Hno) _ IH]; intros v; simpl.
  - rewrite He. simpl. apply fits_as_stated in Hfit; [|done]. by rewrite Hfit.
  - rewrite He'. simpl.
    destruct (fits ggml opts (Layers e')) eqn:Hf; [|apply IH].
    apply fits_as_stated in Hf; done.
Qed.

Lemma fitLoop_no_fit groupings v :
  Forall passedOver groupings →
  fitLoop pmr groupings ggml projectors opts v =
  Some (false, match last groupings with
               | Some gpus => from_option VRAMSize 0 (estimateOf gpus)
               | None => v
               end).
Proof.
  intros Hall. revert v.
  induction Hall as [|g rest (e & He & Hno) Hrest IH]; intros v; simpl; [done|].
  rewrite He. simpl.
  destruct (fits ggml opts (Layers e)) eqn:Hf.
  { apply fits_as_stated in Hf; done. }
  rewrite IH. destruct rest as [|g' rest]; [by simpl; rewrite He|].
  change (last (g :: g' :: rest)) with (last (g' :: rest)).
  destruct (last (g' :: rest)) eqn:Hl; [done|]. by apply last_None in Hl.
Qed.

End FitLoop.

(** C2: the predictor walks the groupings in the order given and answers
    [true] with the [VRAMSize] of the first grouping whose estimate fits --
    a positive count that reaches blockCount + 1 (automatic sentinel) or the
    requested count; when none fits it answers [false] with the [VRAMSize]
    of the last grouping (0 when there is no grouping at all). *)
Theorem PredictServerFit_first_fit pmr groupings ggml projectors opts :
  0 ≤ BlockCount ggml < 2 ^ 63 - 1 →
  (∀ pre gpus post e,
     groupings = pre ++ gpus :: post →
     Forall (passedOver pmr ggml projectors opts) pre →
     EstimateGPULayers pmr gpus ggml projectors opts = Some e →
     fitsAsStated ggml opts e →
     PredictServerFit pmr groupings ggml projectors opts = Some (true, VRAMSize e)) ∧
  (Forall (passedOver pmr ggml projectors opts) groupings →
   PredictServerFit pmr groupings ggml projectors opts =
   Some (false, lastEstimatedVRAM pmr groupings ggml projectors opts)).
Proof.
  intros Hb. split.
  - intros pre gpus post e -> Hpre He Hfit. by apply fitLoop_first_fit.
  - intros Hall. unfold PredictServerFit, lastEstimatedVRAM.
    by rewrite fitLoop_no_fit.
Qed.

Lemma PredictServerFit_first_fit_witness :
  0 ≤ BlockCount Sample.llama < 2 ^ 63 - 1 ∧
  (∃ e, EstimateGPULayers Sample.projectorCost [Sample.cuda 100000 100]
          Sample.llama [] Sample.auto = Some e ∧
        PredictServerFit Sample.projectorCost
          [[Sample.cuda 10 0]; [Sample.cuda 100000 100]; [Sample.cuda 3000 100]]
          Sample.llama [] Sample.auto = Some (true, VRAMSize e)) ∧
  PredictServerFit Sample.projectorCost
    [[Sample.cuda 10 0]; [Sample.cuda 3000 100]] Sample.llama [] Sample.auto
    = Some (false, 2140).
Proof.
  assert (Hb : 0 ≤ BlockCount Sample.llama < 2 ^ 63 - 1) by settle.
  assert (Hsmall : passedOver Sample.projectorCost Sample.llama [] Sample.auto
                     [Sample.cuda 10 0]).
  { clear Hb. eexists. split; [vm_compute; reflexivity|].
    intros [Hpos _]. vm_compute in Hpos. discriminate Hpos. }
  assert (Hmid : passedOver Sample.projectorCost Sample.llama [] Sample.auto
                   [Sample.cuda 3000 100]).
  { clear Hb Hsmall. eexists. split; [vm_compute; reflexivity|].
    intros [_ Hall]. vm_compute in Hall. exact (Hall eq_refl). }
  split; [exact Hb|]. split.
  - eexists. split; [vm_compute; reflexivity|].
    refine (proj1 (PredictServerFit_first_fit Sample.projectorCost
                     [[Sample.cuda 10 0]; [Sample.cuda 100000 100]; [Sample.cuda 3000 100]]
                     Sample.llama [] Sample.auto Hb)
              [[Sample.cuda 10 0]] [Sample.cuda 100000 100]
              [[Sample.cuda 3000 100]] _ eq_refl _ _ _).
    + constructor; [exact Hsmall|constructor].
    + vm_compute. reflexivity.
    + clear Hb Hsmall Hmid. settle.
  - refine (proj2 (PredictServerFit_first_fit Sample.projectorCost
                     [[Sample.cuda 10 0]; [Sample.cuda 3000 100]]
                     Sample.llama [] Sample.auto Hb) _).
    constructor; [exact Hsmall|]. constructor; [exact Hmid|constructor].
Defined.

(** ** The eligible devices *)

(** C5: a device whose free memory is below the sum the code forms at line
    167 -- the first-device overhead when no device before it is eligible,
    the larger graph size, its minimum reservation and two layer sizes -- is
    not listed, receives no layer, and its allocation stays zero, in the
    plan and in the [GPUSizes] of the estimate. *)
Theorem low_memory_device_is_excluded pmr gpus ggml projectors opts sz p e i g :
  sizes pmr ggml opts gpus projectors = Some sz →
  plan ggml opts sz gpus = Some p →
  report ggml opts sz gpus p = Some e →
  gpus !! i = Some g →
  FreeMemory g < threshold sz (overheadAt sz gpus i) g (layerSize0 sz) →
  (∀ d, d ∈ gpusWithSpace (final p) → gs_i d ≠ i) ∧
  layerCounts (final p) !! i = Some 0 ∧
  gpuAllocations (final p) !! i = Some 0 ∧
  (∀ a, GPUSizes e !! i = Some a → a = 0).
Proof.
  intros _ Hp Hr Hi Hlow.
  destruct (plan_leaves_out ggml opts sz gpus i g p Hi Hlow Hp) as (Hws & Ha & Hc).
  split_and!; [done..|].
  apply report_Some in Hr as (_ & gpu0 & _ & [(_ & _ & _ & -> & _)|(_ & _ & _ & _ & -> & _)]).
  - by intros a [=].
  - intros a Ha'. rewrite Ha in Ha'. by inversion Ha'.
Qed.

Lemma low_memory_device_is_excluded_witness :
  let gpus := [Sample.cuda 20000 0; Sample.cuda 100000 100] in
  ∃ sz p e,
    sizes Sample.projectorCost Sample.llama Sample.auto gpus ["clip"] = Some sz ∧
    plan Sample.llama Sample.auto sz gpus = Some p ∧
    report Sample.llama Sample.auto sz gpus p = Some e ∧
    threshold sz (overheadAt sz gpus 0) (Sample.cuda 20000 0) (layerSize0 sz) = 22530 ∧
    GPUSizes e = [0; 41514] ∧
    (∀ d, d ∈ gpusWithSpace (final p) → gs_i d ≠ 0%nat) ∧
    layerCounts (final p) !! 0%nat = Some 0 ∧
    gpuAllocations (final p) !! 0%nat = Some 0 ∧
    (∀ a, GPUSizes e !! 0%nat = Some a → a = 0).
Proof.
  intros gpus. eexists _, _, _.
  split; [vm_compute; reflexivity|]. split; [vm_compute; reflexivity|].
  split; [vm_compute; reflexivity|]. split; [vm_compute; reflexivity|].
  split; [vm_compute; reflexivity|].
  refine (low_memory_device_is_excluded Sample.projectorCost gpus Sample.llama
            ["clip"] Sample.auto _ _ _ 0%nat (Sample.cuda 20000 0) _ _ _ eq_refl _).
  - vm_compute. reflexivity.
  - vm_compute. reflexivity.
  - vm_compute. reflexivity.
  - vm_compute. reflexivity.
Defined.

(** ** The budget of a device *)

(** C9: as long as the sizes involved are below 2^60 bytes, so that no
    sum wraps around, the allocation of device [i] -- minimum reservation,
    layer buffer, projector overhead, blocks, head and graph -- stays within
    the free memory the device reported. *)
Theorem allocation_within_free_memory pmr gpus ggml projectors opts sz p e i g a :
  sizes pmr ggml opts gpus projectors = Some sz →
  plan ggml opts sz gpus = Some p →
  report ggml opts sz gpus p = Some e →
  modestSizes gpus ggml sz →
  gpus !! i = Some g →
  GPUSizes e !! i = Some a →
  0 ≤ a ≤ FreeMemory g.
Proof.
  intros _ Hp Hr Hm Hi Ha.
  apply report_Some in Hr
    as (_ & gpu0 & _ & [(_ & _ & _ & Hs & _)|(_ & _ & _ & _ & Hs & _)]);
    rewrite Hs in Ha; [done|].
  by eapply plan_within_free.
Qed.

Lemma allocation_within_free_memory_witness :
  let gpus := [Sample.cuda 100000 100; Sample.cuda 40000 100] in
  ∃ sz p e,
    sizes Sample.projectorCost Sample.llama Sample.auto gpus ["clip"] = Some sz ∧
    plan Sample.llama Sample.auto sz gpus = Some p ∧
    report Sample.llama Sample.auto sz gpus p = Some e ∧
    modestSizes gpus Sample.llama sz ∧
    GPUSizes e !! 1%nat = Some 23080 ∧
    0 ≤ 23080 ≤ FreeMemory (Sample.cuda 40000 100).
Proof.
  intros gpus. eexists _, _, _.
  split; [vm_compute; reflexivity|]. split; [vm_compute; reflexivity|].
  split; [vm_compute; reflexivity|].
  assert (Hm : modestSizes gpus Sample.llama
                 {| numCtx := 2048; projectorSize := 50; kv := 24576;
                    layerSize0 := 9192; graphPartialOffload := 4096;
                    graphFullOffload := 4096; memoryLayerOutput := 500 |})
    by modest_by_evaluation.
  split; [exact Hm|]. split; [vm_compute; reflexivity|].
  refine (allocation_within_free_memory Sample.projectorCost gpus Sample.llama
            ["clip"] Sample.auto _ _ _ 1%nat (Sample.cuda 40000 100) 23080
            _ _ _ Hm eq_refl _).
  - vm_compute. reflexivity.
  - vm_compute. reflexivity.
  - vm_compute. reflexivity.
  - vm_compute. reflexivity.
Defined.

(** ** Overflow *)

(** C8, as the code has it: when p < blockCount blocks are placed, the
    overflow of the blocks (line 213) is (blockCount - p) times the layer
    size the block loop ended with, modulo 2^64; when the last block is
    present in the model that size is the byte size of the last block,
    blk.(blockCount-1), plus the share kv / blockCount of the cache. *)
Theorem overflow_of_unplaced_blocks ggml opts sz gpus st0 st1 :
  eligible sz gpus = Some st0 →
  blockLoop ggml opts sz (blockRange ggml) st0 = Some st1 →
  0 < BlockCount ggml < 2 ^ 63 - 1 →
  layerCount st1 < BlockCount ggml →
  blocksOverflow ggml st1 =
    (false, wrap64 ((BlockCount ggml - layerCount st1) * layerSize st1)) ∧
  ∀ b, TensorLayers ggml !! blk (Z.to_nat (BlockCount ggml - 1)) = Some b →
       layerSize st1 = b +u kv sz / BlockCount ggml.
Proof.
  intros H0 H1 Hb Hlt. split.
  - rewrite blocksOverflow_spec, (blockCount_small ggml Hb).
    by rewrite decide_False by lia.
  - intros b Hlast. unfold blockRange in H1.
    rewrite (blockCount_small ggml Hb) in H1.
    replace (Z.to_nat (BlockCount ggml))
      with (S (Z.to_nat (BlockCount ggml - 1))) in H1 by lia.
    eapply blockLoop_layerSize; [exact H1|exact Hlast|].
    unfold udiv. by rewrite decide_False by lia.
Qed.

Lemma overflow_of_unplaced_blocks_witness :
  let gpus := [Sample.cuda 3000 100] in
  ∃ sz st0 st1,
    sizes Sample.projectorCost Sample.uneven Sample.auto gpus [] = Some sz ∧
    eligible sz gpus = Some st0 ∧
    blockLoop Sample.uneven Sample.auto sz (blockRange Sample.uneven) st0 = Some st1 ∧
    layerCount st1 = 1 ∧ layerSize st1 = 3016 ∧
    blocksOverflow Sample.uneven st1 =
      (false, wrap64 ((BlockCount Sample.uneven - layerCount st1) * layerSize st1)) ∧
    ∀ b, TensorLayers Sample.uneven
           !! blk (Z.to_nat (BlockCount Sample.uneven - 1)) = Some b →
         layerSize st1 = b +u kv sz / BlockCount Sample.uneven.
Proof.
  intros gpus. eexists _, _, _.
  split; [vm_compute; reflexivity|]. split; [vm_compute; reflexivity|].
  split; [vm_compute; reflexivity|]. split; [reflexivity|]. split; [reflexivity|].
  refine (overflow_of_unplaced_blocks Sample.uneven Sample.auto _ gpus _ _ _ _ _ _).
  - vm_compute. reflexivity.
  - vm_compute. reflexivity.
  - settle.
  - settle.
Defined.

(** C8 as stated fails: one of three blocks is placed and the overflow of
    the two others is twice the size of the last block (with its share of
    the cache), 2 * 3016, not twice the 1000 bytes of block 0, nor twice the
    1016 bytes of block 0 with its share of the cache. *)
Lemma overflow_is_not_block0_size :
  let gpus := [Sample.cuda 3000 100] in
  ∃ sz st0 st1,
    sizes Sample.projectorCost Sample.uneven Sample.auto gpus [] = Some sz ∧
    eligible sz gpus = Some st0 ∧
    blockLoop Sample.uneven Sample.auto sz (blockRange Sample.uneven) st0 = Some st1 ∧
    layerCount st1 = 1 ∧ BlockCount Sample.uneven = 3 ∧
    TensorLayers Sample.uneven !! "blk.0" = Some 1000 ∧ layerSize0 sz = 1016 ∧
    (blocksOverflow Sample.uneven st1).2 = 6032 ∧
    (blocksOverflow Sample.uneven st1).2
      ≠ (BlockCount Sample.uneven - layerCount st1) * 1000 ∧
    (blocksOverflow Sample.uneven st1).2
      ≠ (BlockCount Sample.uneven - layerCount st1) * layerSize0 sz.
Proof.
  intros gpus. eexists _, _, _.
  split; [vm_compute; reflexivity|]. split; [vm_compute; reflexivity|].
  split; [vm_compute; reflexivity|]. split; [reflexivity|]. split; [reflexivity|].
  split; [vm_compute; reflexivity|]. split; [reflexivity|].
  split; [vm_compute; reflexivity|]. split; settle.
Qed.

(** C3: when the head has a size and the cap does not exclude it, either
    the attempt fails -- the count stays, the full-load flag is cleared and
    the head size is added to the overflow -- or the head is charged to a
    listed device, and then every block had been placed, the flag stays set
    and the overflow stays zero: a head that was placed is never part of
    the overflow. *)
Theorem head_is_placed_or_overflows ggml opts sz gpus p st0 st1 :
  plan ggml opts sz gpus = Some p →
  eligible sz gpus = Some st0 →
  blockLoop ggml opts sz (blockRange ggml) st0 = Some st1 →
  0 < BlockCount ggml < 2 ^ 63 - 1 →
  0 < memoryLayerOutput sz →
  NumGPU opts < 0 ∨ layerCount st1 < NumGPU opts →
  (layerCount (final p) = layerCount st1 ∧ fullyLoaded p = false ∧
   overflow p = (blocksOverflow ggml st1).2 +u memoryLayerOutput sz)
  ∨
  (layerCount (final p) = layerCount st1 + 1 ∧
   layerCount st1 = BlockCount ggml ∧
   fullyLoaded p = true ∧ overflow p = 0 ∧
   memoryRequiredTotal p = memoryRequiredPartial p).
Proof.
  intros (st0' & st1' & st2 & al & H0' & H1' & H2 & Hal & Hf & _ & Hpart & Htot)%plan_Some
    H0 H1 Hb Hpos Hcap.
  rewrite H0 in H0'. inversion H0'; subst st0'.
  rewrite H1 in H1'. inversion H1'; subst st1'.
  pose proof (blocks_front ggml opts sz gpus st0 st1 Hb H0 H1) as Hfront.
  rewrite Hf. simpl.
  apply (headStage_attempt ggml opts sz) in H2
    as [(-> & -> & ->)|(Hall & Hc & Hfl & Hov & _)]; try done.
  - by left.
  - right. rewrite blocksOverflow_spec, (blockCount_small ggml Hb) in Hfl, Hov.
    rewrite decide_True in Hfl, Hov by lia. simpl in Hfl, Hov.
    rewrite Htot, Hpart, Hov. split_and!; [lia|done..|].
    unfold uadd. rewrite Z.add_0_r. rewrite sumAllocations_total.
    unfold wrap64. by rewrite Z.mod_mod by lia.
Qed.

Lemma head_is_placed_or_overflows_witness :
  let gpus := [Sample.cuda 100000 100] in
  ∃ sz p st0 st1,
    plan Sample.llama Sample.auto sz gpus = Some p ∧
    eligible sz gpus = Some st0 ∧
    blockLoop Sample.llama Sample.auto sz (blockRange Sample.llama) st0 = Some st1 ∧
    sizes Sample.projectorCost Sample.llama Sample.auto gpus [] = Some sz ∧
    0 < BlockCount Sample.llama < 2 ^ 63 - 1 ∧
    0 < memoryLayerOutput sz ∧
    (NumGPU Sample.auto < 0 ∨ layerCount st1 < NumGPU Sample.auto) ∧
    layerCount (final p) = 4 ∧ overflow p = 0 ∧
    ((layerCount (final p) = layerCount st1 ∧ fullyLoaded p = false ∧
      overflow p = (blocksOverflow Sample.llama st1).2 +u memoryLayerOutput sz)
     ∨
     (layerCount (final p) = layerCount st1 + 1 ∧
      layerCount st1 = BlockCount Sample.llama ∧
      fullyLoaded p = true ∧ overflow p = 0 ∧
      memoryRequiredTotal p = memoryRequiredPartial p)).
Proof.
  intros gpus.
  exists {| numCtx := 4; projectorSize := 0; kv := 48; layerSize0 := 1016;
            graphPartialOffload := 8; graphFullOffload := 8;
            memoryLayerOutput := 500 |}.
  eexists _, _, _.
  split; [vm_compute; reflexivity|]. split; [vm_compute; reflexivity|].
  split; [vm_compute; reflexivity|]. split; [vm_compute; reflexivity|].
  split; [settle|]. split; [settle|]. split; [left; settle|].
  split; [reflexivity|]. split; [reflexivity|].
  refine (head_is_placed_or_overflows Sample.llama Sample.auto _ gpus _ _ _
            _ _ _ _ _ _).
  - vm_compute. reflexivity.
  - vm_compute. reflexivity.
  - vm_compute. reflexivity.
  - settle.
  - settle.
  - left. settle.
Defined.

(** ** Partial and total size *)

(** C1, as the code has it: for sizes that are positive and do not wrap
    around, [VRAMSize ≤ TotalSize], and the two are equal exactly when
    [Layers] is the full count: blockCount + 1 when the head has a size and
    the cap admits it (automatic sentinel, or a requested count above
    blockCount), blockCount otherwise. *)
Theorem VRAMSize_TotalSize pmr gpus ggml projectors opts sz p e :
  sizes pmr ggml opts gpus projectors = Some sz →
  plan ggml opts sz gpus = Some p →
  report ggml opts sz gpus p = Some e →
  modestSizes gpus ggml sz →
  0 < BlockCount ggml < 2 ^ 63 - 1 →
  0 < layerSize0 sz → 0 < layerSize (final p) →
  total (FreeMemory <$> gpus) + BlockCount ggml * layerSize (final p)
    + memoryLayerOutput sz < 2 ^ 64 →
  VRAMSize e ≤ TotalSize e ∧
  (VRAMSize e = TotalSize e ↔ Layers e = fullCount ggml opts sz).
Proof.
  intros _ Hp Hr Hm Hb Hl0 Hls Hfit.
  pose proof (plan_total_bound ggml opts sz gpus Hm p Hp) as Htot.
  assert (Hhead : 0 ≤ memoryLayerOutput sz).
  { destruct Hm as (_ & _ & _ & _ & _ & Hh & _). apply Hh. }
  destruct (plan_overflow ggml opts sz gpus p Hp Hb Hls Hhead) as (Hover & Hzero); [lia|].
  pose proof (plan_some_charge ggml opts sz gpus Hm p Hp) as Hcharge.
  pose proof (plan_u64s ggml opts sz gpus p Hp) as Hu.
  assert (Hfull : 1 ≤ fullCount ggml opts sz).
  { unfold fullCount. case_decide; lia. }
  apply plan_Some in Hp as (st0 & st1 & st2 & al & _ & _ & _ & _ & Hf & _ & Hpart & Hsum).
  rewrite Hf in *. simpl in *.
  assert (Hexact : memoryRequiredPartial p = total al).
  { rewrite Hpart, sumAllocations_total. apply wrap64_small. unfold is_u64. lia. }
  assert (Htotal : memoryRequiredTotal p = total al + overflow p).
  { rewrite Hsum, <- Hpart, Hexact. apply uadd_exact. lia. }
  apply report_Some in Hr
    as (HT & gpu0 & _ & [(_ & HL & HV & _)|(_ & _ & HL & HV & _)]);
    rewrite HT, HV, HL, Htotal, ?Hf; simpl.
  - split; [lia|]. split; [|lia]. intros Heq.
    destruct (decide (layerCount st2 = fullCount ggml opts sz)) as [Hall|Hmiss].
    + destruct Hcharge as (k & a & Ha & Hlow); [lia|].
      assert (a ≤ total al); [|lia].
      eapply total_lookup_le; [|exact Ha].
      eapply Forall_impl; [exact Hu|]. unfold is_u64. intros; lia.
    + assert (overflow p ≠ 0) by (by rewrite Hzero). lia.
  - rewrite Hexact. split; [lia|]. rewrite <- Hzero. lia.
Qed.

Lemma VRAMSize_TotalSize_witness :
  let gpus := [Sample.cuda 100000 100; Sample.cuda 3000 100] in
  ∃ sz p e,
    sizes Sample.projectorCost Sample.llama Sample.auto gpus [] = Some sz ∧
    plan Sample.llama Sample.auto sz gpus = Some p ∧
    report Sample.llama Sample.auto sz gpus p = Some e ∧
    modestSizes gpus Sample.llama sz ∧
    0 < BlockCount Sample.llama < 2 ^ 63 - 1 ∧
    0 < layerSize0 sz ∧ 0 < layerSize (final p) ∧
    total (FreeMemory <$> gpus) + BlockCount Sample.llama * layerSize (final p)
      + memoryLayerOutput sz < 2 ^ 64 ∧
    Layers e = 4 ∧ fullCount Sample.llama Sample.auto sz = 4 ∧
    VRAMSize e ≤ TotalSize e ∧
    (VRAMSize e = TotalSize e ↔ Layers e = fullCount Sample.llama Sample.auto sz).
Proof.
  intros gpus.
  exists {| numCtx := 4; projectorSize := 0; kv := 48; layerSize0 := 1016;
            graphPartialOffload := 8; graphFullOffload := 8;
            memoryLayerOutput := 500 |}.
  eexists _, _.
  split; [vm_compute; reflexivity|]. split; [vm_compute; reflexivity|].
  split; [vm_compute; reflexivity|].
  assert (Hm : modestSizes gpus Sample.llama
                 {| numCtx := 4; projectorSize := 0; kv := 48; layerSize0 := 1016;
                    graphPartialOffload := 8; graphFullOffload := 8;
                    memoryLayerOutput := 500 |})
    by modest_by_evaluation.
  split; [exact Hm|]. split; [settle|]. split; [settle|]. split; [settle|].
  split; [settle|]. split; [reflexivity|]. split; [vm_compute; reflexivity|].
  refine (VRAMSize_TotalSize Sample.projectorCost gpus Sample.llama [] Sample.auto
            _ _ _ _ _ _ Hm _ _ _ _).
  - vm_compute. reflexivity.
  - vm_compute. reflexivity.
  - vm_compute. reflexivity.
  - settle.
  - settle.
  - settle.
  - settle.
Defined.

(** C1 as stated fails: with a requested count equal to the block count the
    head, although it has a size, is not attempted; the three blocks are
    placed, nothing overflows and [VRAMSize = TotalSize] at
    [Layers = blockCount], not blockCount + 1. *)
Lemma full_at_the_cap_without_head :
  ∃ sz e,
    sizes Sample.projectorCost Sample.llama (Sample.upTo 3)
      [Sample.cuda 100000 100] [] = Some sz ∧
    EstimateGPULayers Sample.projectorCost [Sample.cuda 100000 100]
      Sample.llama [] (Sample.upTo 3) = Some e ∧
    0 < memoryLayerOutput sz ∧ BlockCount Sample.llama = 3 ∧
    VRAMSize e = TotalSize e ∧ Layers e = 3 ∧
    Layers e ≠ BlockCount Sample.llama + 1.
Proof.
  eexists _, _.
  split; [vm_compute; reflexivity|]. split; [vm_compute; reflexivity|].
  split; [settle|]. split; [reflexivity|]. split; [reflexivity|].
  split; [reflexivity|]. settle.
Qed.

(** ** More free memory *)

(** C4, as the code has it: on a group of one device, more free memory on
    that device (same library, same minimum reservation) never gives fewer
    placed layers. *)
Theorem more_free_memory_one_device pmr g g' ggml projectors opts e e' :
  Library g' = Library g → MinimumMemory g' = MinimumMemory g →
  FreeMemory g < FreeMemory g' →
  0 < BlockCount ggml < 2 ^ 63 - 1 →
  EstimateGPULayers pmr [g] ggml projectors opts = Some e →
  EstimateGPULayers pmr [g'] ggml projectors opts = Some e' →
  Layers e ≤ Layers e'.
Proof.
  intros Hlib Hmin Hfree Hb (sz & p & Hsz & Hp & Hr)%EstimateGPULayers_Some
    (sz' & p' & Hsz' & Hp' & Hr')%EstimateGPULayers_Some.
  rewrite (sizes_one_device _ _ _ g g') in Hsz' by done.
  rewrite Hsz in Hsz'. inversion Hsz'; subst sz'.
  assert (Hle : layerCount (final p) ≤ layerCount (final p')).
  { apply (plan_one_device ggml opts sz g g'); [done|lia|done..]. }
  apply report_Some in Hr as (_ & gpu0 & Hg0 & Hcase).
  apply report_Some in Hr' as (_ & gpu0' & Hg0' & Hcase').
  inversion Hg0; inversion Hg0'; subst gpu0 gpu0'.
  destruct Hcase as [(Hdeg & -> & _)|(Hcpu & Hnz & -> & _)];
    destruct Hcase' as [(Hdeg' & -> & _)|(Hcpu' & Hnz' & -> & _)].
  - done.
  - destruct Hdeg as [Hc|Hz]; [congruence|lia].
  - destruct Hdeg' as [Hc|Hz]; [congruence|lia].
  - done.
Qed.

Lemma more_free_memory_one_device_witness :
  ∃ e e',
    EstimateGPULayers Sample.projectorCost [Sample.cuda 3000 100]
      Sample.llama [] Sample.auto = Some e ∧
    EstimateGPULayers Sample.projectorCost [Sample.cuda 5000 100]
      Sample.llama [] Sample.auto = Some e' ∧
    Layers e = 1 ∧ Layers e' = 4 ∧ Layers e ≤ Layers e'.
Proof.
  eexists _, _.
  split; [vm_compute; reflexivity|]. split; [vm_compute; reflexivity|].
  split; [reflexivity|]. split; [reflexivity|].
  refine (more_free_memory_one_device Sample.projectorCost
            (Sample.cuda 3000 100) (Sample.cuda 5000 100) Sample.llama []
            Sample.auto _ _ eq_refl eq_refl _ _ _ _).
  - settle.
  - settle.
  - vm_compute. reflexivity.
  - vm_compute. reflexivity.
Defined.

(** C4 as stated fails.  With 19 free bytes the first of three devices is
    not eligible, the blocks alternate between the two others and all ten
    are placed.  With 21 free bytes it is eligible and takes block 0; the
    rotation then offers the large block 2 to the third device, which is
    dropped from the list, and only six blocks are placed. *)
Lemma more_free_memory_fewer_layers :
  ∃ e e',
    EstimateGPULayers Sample.projectorCost
      [Sample.cuda 19 0; Sample.cuda 1051 0; Sample.cuda 61 0]
      Sample.bulky [] Sample.auto = Some e ∧
    EstimateGPULayers Sample.projectorCost
      [Sample.cuda 21 0; Sample.cuda 1051 0; Sample.cuda 61 0]
      Sample.bulky [] Sample.auto = Some e' ∧
    Layers e = 10 ∧ Layers e' = 6 ∧ ¬ Layers e ≤ Layers e'.
Proof.
  eexists _, _.
  split; [vm_compute; reflexivity|]. split; [vm_compute; reflexivity|].
  split; [reflexivity|]. split; [reflexivity|]. settle.
Qed.

(** * Further properties of the estimator and of the predictor *)

(** ** The requested count *)

(** X1: a requested layer count (NumGPU >= 0) is a cap: the estimate never
    reports more layers than were asked for (lines 190 and 218). *)
Theorem Layers_within_requested_count pmr gpus ggml projectors opts e :
  0 ≤ NumGPU opts < 2 ^ 63 →
  EstimateGPULayers pmr gpus ggml projectors opts = Some e →
  0 ≤ Layers e ≤ NumGPU opts.
Proof.
  intros Hn (sz & p & _ & Hp & Hr)%EstimateGPULayers_Some.
  pose proof (plan_cap ggml opts sz gpus p Hn Hp) as Hc.
  apply report_Some in Hr as (_ & gpu0 & _ & [(_ & -> & _)|(_ & _ & -> & _)]); lia.
Qed.

Lemma Layers_within_requested_count_witness :
  ∃ e, EstimateGPULayers Sample.projectorCost [Sample.cuda 100000 100]
         Sample.llama [] (Sample.upTo 2) = Some e ∧
       Layers e = 2 ∧ 0 ≤ Layers e ≤ NumGPU (Sample.upTo 2).
Proof.
  eexists. split; [vm_compute; reflexivity|]. split; [reflexivity|].
  refine (Layers_within_requested_count Sample.projectorCost
            [Sample.cuda 100000 100] Sample.llama [] (Sample.upTo 2) _ _ _).
  - settle.
  - vm_compute. reflexivity.
Defined.

(** X2: the reported layer count lies between 0 and blockCount + 1: every
    block at most once, and the head (lines 182-234). *)
Theorem Layers_at_most_blocks_and_head pmr gpus ggml projectors opts e :
  0 < BlockCount ggml < 2 ^ 63 - 1 →
  EstimateGPULayers pmr gpus ggml projectors opts = Some e →
  0 ≤ Layers e ≤ BlockCount ggml + 1.
Proof.
  intros Hb (sz & p & _ & Hp & Hr)%EstimateGPULayers_Some.
  pose proof (plan_count_range ggml opts sz gpus p Hb Hp) as Hc.
  apply report_Some in Hr as (_ & gpu0 & _ & [(_ & -> & _)|(_ & _ & -> & _)]); lia.
Qed.

Lemma Layers_at_most_blocks_and_head_witness :
  ∃ e, EstimateGPULayers Sample.projectorCost
         [Sample.cuda 100000 100; Sample.cuda 40000 100] Sample.llama ["clip"]
         Sample.auto = Some e ∧
       Layers e = 4 ∧ 0 ≤ Layers e ≤ BlockCount Sample.llama + 1.
Proof.
  eexists. split; [vm_compute; reflexivity|]. split; [reflexivity|].
  refine (Layers_at_most_blocks_and_head Sample.projectorCost
            [Sample.cuda 100000 100; Sample.cuda 40000 100] Sample.llama ["clip"]
            Sample.auto _ _ _).
  - settle.
  - vm_compute. reflexivity.
Defined.

(** ** The device list *)

(** X3: devices only ever leave the list of devices with space (line 205),
    and under the automatic sentinel a block that could not be placed means
    that the list ended empty: every eligible device had been dropped. *)
Theorem devices_only_leave ggml opts sz gpus st0 p :
  0 < BlockCount ggml < 2 ^ 63 - 1 →
  eligible sz gpus = Some st0 →
  plan ggml opts sz gpus = Some p →
  gpusWithSpace (final p) ⊆ gpusWithSpace st0 ∧
  (NumGPU opts < 0 → layerCount (final p) < BlockCount ggml →
   gpusWithSpace (final p) = []).
Proof.
  intros Hb H0 Hp. split.
  - exact (plan_devices ggml opts sz gpus p st0 H0 Hp).
  - intros Hauto. exact (plan_exhausted ggml opts sz gpus p Hb Hauto Hp).
Qed.

Lemma devices_only_leave_witness :
  let gpus := [Sample.cuda 3000 100; Sample.cuda 10 0] in
  ∃ sz st0 p,
    sizes Sample.projectorCost Sample.llama Sample.auto gpus [] = Some sz ∧
    0 < BlockCount Sample.llama < 2 ^ 63 - 1 ∧
    eligible sz gpus = Some st0 ∧
    plan Sample.llama Sample.auto sz gpus = Some p ∧
    layerCount (final p) = 1 ∧
    gpusWithSpace (final p) ⊆ gpusWithSpace st0 ∧
    (NumGPU Sample.auto < 0 → layerCount (final p) < BlockCount Sample.llama →
     gpusWithSpace (final p) = []).
Proof.
  intros gpus. eexists _, _, _.
  split; [vm_compute; reflexivity|]. split; [settle|].
  lazymatch goal with
  | |- eligible ?s _ = _ ∧ _ =>
      split; [vm_compute; reflexivity|]; split; [vm_compute; reflexivity|];
      split; [reflexivity|];
      refine (devices_only_leave Sample.llama Sample.auto s gpus _ _ _ _ _)
  end.
  - settle.
  - vm_compute. reflexivity.
  - vm_compute. reflexivity.
Defined.

(** ** The split of the layers *)

(** X4: in an estimate that places layers the per-device counts -- one per
    device of the group, none negative -- add up to [Layers], and
    [TensorSplit] is their decimal rendering joined by commas when the group
    has more than one device, and empty otherwise (lines 201-202, 224-225,
    260-267). *)
Theorem layerCounts_add_up_to_Layers ggml opts sz gpus p e :
  0 < BlockCount ggml < 2 ^ 63 - 1 →
  plan ggml opts sz gpus = Some p →
  report ggml opts sz gpus p = Some e →
  Layers e ≠ 0 →
  length (layerCounts (final p)) = length gpus ∧
  Forall (λ c, 0 ≤ c) (layerCounts (final p)) ∧
  total (layerCounts (final p)) = Layers e ∧
  TensorSplit e =
    if decide (1 < length gpus)%nat
    then String.concat "," (pretty <$> layerCounts (final p)) else "".
Proof.
  intros Hb Hp Hr Hnz.
  destruct (plan_tallied ggml opts sz gpus p Hb Hp) as (Hlen & Hpos & Hsum).
  unfold report in Hr. bind_inv Hr gpu0 H0.
  destruct (decide (Library gpu0 = "cpu")); [by inversion Hr; subst|].
  destruct (decide (layerCount (final p) = 0)); [by inversion Hr; subst|].
  inversion Hr; subst; simpl. by split_and!.
Qed.

Lemma layerCounts_add_up_to_Layers_witness :
  let gpus := [Sample.cuda 100000 100; Sample.cuda 40000 100] in
  ∃ sz p e,
    sizes Sample.projectorCost Sample.llama Sample.auto gpus ["clip"] = Some sz ∧
    0 < BlockCount Sample.llama < 2 ^ 63 - 1 ∧
    plan Sample.llama Sample.auto sz gpus = Some p ∧
    report Sample.llama Sample.auto sz gpus p = Some e ∧
    Layers e ≠ 0 ∧ TensorSplit e = "2,2" ∧
    length (layerCounts (final p)) = length gpus ∧
    Forall (λ c, 0 ≤ c) (layerCounts (final p)) ∧
    total (layerCounts (final p)) = Layers e ∧
    TensorSplit e =
      if decide (1 < length gpus)%nat
      then String.concat "," (pretty <$> layerCounts (final p)) else "".
Proof.
  intros gpus. eexists _, _, _.
  split; [vm_compute; reflexivity|]. split; [settle|].
  lazymatch goal with
  | |- plan _ _ ?s _ = _ ∧ _ =>
      split; [vm_compute; reflexivity|]; split; [vm_compute; reflexivity|];
      split; [settle|]; split; [reflexivity|];
      refine (layerCounts_add_up_to_Layers Sample.llama Sample.auto s gpus
                _ _ _ _ _ _)
  end.
  - settle.
  - vm_compute. reflexivity.
  - vm_compute. reflexivity.
  - settle.
Defined.

(** ** Groupings that never fit *)

(** X5: a cpu grouping gets the zero-layer estimate (lines 292-294), so a
    predictor that is given cpu groupings only answers [false], with an
    estimated VRAM of 0. *)
Theorem cpu_groupings_never_fit pmr groupings ggml projectors opts :
  0 < BlockCount ggml < 2 ^ 64 →
  Forall (λ gpus, ∃ g rest, gpus = g :: rest ∧ Library g = "cpu") groupings →
  PredictServerFit pmr groupings ggml projectors opts = Some (false, 0).
Proof.
  intros Hb Hall. unfold PredictServerFit.
  rewrite fitLoop_without_layers; [by destruct groupings|].
  eapply Forall_impl; [exact Hall|]. intros gpus (g & rest & -> & Hcpu).
  destruct (EstimateGPULayers_total pmr (g :: rest) ggml projectors opts)
    as [e He]; [done..|].
  exists e. split; [done|].
  apply EstimateGPULayers_Some in He as (sz & p & _ & _ & Hr).
  apply report_Some in Hr as (_ & gpu0 & H0 & [(_ & ? & _)|(Hn & _)]); [done|].
  inversion H0; subst. done.
Qed.

Lemma cpu_groupings_never_fit_witness :
  0 < BlockCount Sample.llama < 2 ^ 64 ∧
  PredictServerFit Sample.projectorCost [[Sample.cpu]] Sample.llama []
    Sample.auto = Some (false, 0).
Proof.
  split; [settle|].
  refine (cpu_groupings_never_fit Sample.projectorCost [[Sample.cpu]]
            Sample.llama [] Sample.auto _ _).
  - settle.
  - constructor; [|constructor]. by exists Sample.cpu, [].
Defined.

(** X6: a request for zero layers (NumGPU = 0) never fits: every estimate
    has no layer, and the test of line 27 asks for a positive count; the
    predictor answers [false] with an estimated VRAM of 0. *)
Theorem zero_layers_requested_never_fits pmr groupings ggml projectors opts :
  NumGPU opts = 0 →
  0 < BlockCount ggml < 2 ^ 64 →
  Forall (λ gpus, gpus ≠ []) groupings →
  PredictServerFit pmr groupings ggml projectors opts = Some (false, 0).
Proof.
  intros Hzero Hb Hall. unfold PredictServerFit.
  rewrite fitLoop_without_layers; [by destruct groupings|].
  eapply Forall_impl; [exact Hall|]. intros gpus Hne.
  destruct (EstimateGPULayers_total pmr gpus ggml projectors opts)
    as [e He]; [done..|].
  exists e. split; [done|].
  apply EstimateGPULayers_Some in He as (sz & p & _ & Hp & Hr).
  assert (0 ≤ layerCount (final p) ≤ NumGPU opts) as Hc.
  { apply (plan_cap ggml opts sz gpus); [rewrite Hzero; lia|done]. }
  apply report_Some in Hr as (_ & gpu0 & _ & [(_ & ? & _)|(_ & _ & -> & _)]); [done|].
  lia.
Qed.

Lemma zero_layers_requested_never_fits_witness :
  NumGPU (Sample.upTo 0) = 0 ∧ 0 < BlockCount Sample.llama < 2 ^ 64 ∧
  PredictServerFit Sample.projectorCost
    [[Sample.cuda 100000 100]; [Sample.metal 100000]] Sample.llama []
    (Sample.upTo 0) = Some (false, 0).
Proof.
  split; [reflexivity|]. split; [settle|].
  refine (zero_layers_requested_never_fits Sample.projectorCost
            [[Sample.cuda 100000 100]; [Sample.metal 100000]] Sample.llama []
            (Sample.upTo 0) eq_refl _ _).
  - settle.
  - repeat constructor; discriminate.
Defined.

(** ** The sizes fixed before placement *)

(** X7: on metal, and on any group of more than one device, the partial
    and the full graph size are made equal (lines 133-138), so the graph
    size an estimate with layers reports does not depend on whether the
    model is fully loaded. *)
Theorem one_graph_size pmr gpus ggml projectors opts sz p e gpu0 :
  sizes pmr ggml opts gpus projectors = Some sz →
  plan ggml opts sz gpus = Some p →
  report ggml opts sz gpus p = Some e →
  gpus !! 0%nat = Some gpu0 →
  Library gpu0 = "metal" ∨ (1 < length gpus)%nat →
  graphPartialOffload sz = graphFullOffload sz ∧
  (Layers e ≠ 0 → Graph e = graphFullOffload sz).
Proof.
  intros Hsz Hp Hr H0 Hcase.
  apply sizes_fields in Hsz as (gpu0' & H0' & _ & _ & _ & Heq).
  rewrite H0 in H0'. inversion H0'; subst gpu0'.
  specialize (Heq Hcase). split; [done|]. intros Hnz.
  apply plan_Some in Hp as (_ & _ & _ & _ & _ & _ & _ & _ & _ & Hg & _).
  apply report_Some in Hr
    as (_ & g0 & _ & [(_ & ? & _)|(_ & _ & _ & _ & _ & ->)]); [done|].
  rewrite Hg. unfold graphOf. rewrite Heq. by destruct (fullyLoaded p).
Qed.

Lemma one_graph_size_witness :
  let gpus := [Sample.metal 3000] in
  ∃ sz p e,
    sizes Sample.projectorCost Sample.llama Sample.auto gpus [] = Some sz ∧
    plan Sample.llama Sample.auto sz gpus = Some p ∧
    report Sample.llama Sample.auto sz gpus p = Some e ∧
    Layers e = 1 ∧
    graphPartialOffload sz = graphFullOffload sz ∧
    (Layers e ≠ 0 → Graph e = graphFullOffload sz).
Proof.
  intros gpus. eexists _, _, _.
  split; [vm_compute; reflexivity|]. split; [vm_compute; reflexivity|].
  split; [vm_compute; reflexivity|]. split; [reflexivity|].
  refine (one_graph_size Sample.projectorCost gpus Sample.llama [] Sample.auto
            _ _ _ (Sample.metal 3000) _ _ _ eq_refl _).
  - vm_compute. reflexivity.
  - vm_compute. reflexivity.
  - vm_compute. reflexivity.
  - left. reflexivity.
Defined.

(** X8: the projectors add up, modulo 2^64, to the overhead of the first
    device, and one projector is enough to raise the context to 2048; without
    projectors the context is the requested one and the overhead is zero
    (lines 103-108). *)
Theorem projectors_raise_the_context pmr gpus ggml projectors opts sz :
  sizes pmr ggml opts gpus projectors = Some sz →
  projectorSize sz = wrap64 (total (pmr <$> projectors)) ∧
  numCtx sz = match projectors with
              | [] => NumCtx opts
              | _ => Z.max (NumCtx opts) 2048
              end.
Proof.
  intros (gpu0 & _ & _ & Hps & Hctx & _)%sizes_fields.
  change (0, NumCtx opts) with (wrap64 0, NumCtx opts) in Hps, Hctx.
  rewrite projectorLoop_spec in Hps, Hctx. by simpl in *.
Qed.

Lemma projectors_raise_the_context_witness :
  ∃ sz,
    sizes Sample.projectorCost Sample.llama Sample.auto
      [Sample.cuda 100000 100] ["clip"; "clip"] = Some sz ∧
    projectorSize sz = 100 ∧ numCtx sz = 2048 ∧
    projectorSize sz = wrap64 (total (Sample.projectorCost <$> ["clip"; "clip"])) ∧
    numCtx sz = Z.max (NumCtx Sample.auto) 2048.
Proof.
  eexists. split; [vm_compute; reflexivity|]. split; [reflexivity|].
  split; [reflexivity|].
  refine (projectors_raise_the_context Sample.projectorCost
            [Sample.cuda 100000 100] Sample.llama ["clip"; "clip"] Sample.auto _ _).
  vm_compute. reflexivity.
Defined.

(** ** The head loop *)

(** X9: the head loop (lines 219-228) does not drop a device that fails, so
    with two listed devices and an even layer count it looks at the first
    listed device twice and never at the second: when the first has no room
    for the head, the head is not placed, however much the second has. *)
Theorem head_loop_skips_the_second_device sz st g1 g2 a :
  gpusWithSpace st = [g1; g2] →
  0 ≤ layerCount st → Z.even (layerCount st) = true →
  gpuAllocations st !! gs_i g1 = Some a →
  ¬ a +u maxGraph sz +u memoryLayerOutput sz < FreeMemory (gs_g g1) →
  placeHead sz (length (gpusWithSpace st)) st = Some st.
Proof.
  intros Hw Hpos Heven Ha Hfull. rewrite Hw. simpl length.
  rewrite (placeHead_two sz st g1 g2 a) by done. by rewrite decide_False.
Qed.

Lemma head_loop_skips_the_second_device_witness :
  let gpus := [Sample.cuda 25 0; Sample.cuda 1000 0] in
  let g1 := {| gs_i := 0; gs_g := Sample.cuda 25 0 |} in
  let g2 := {| gs_i := 1; gs_g := Sample.cuda 1000 0 |} in
  ∃ sz st0 st1,
    sizes Sample.projectorCost Sample.tiny Sample.auto gpus [] = Some sz ∧
    eligible sz gpus = Some st0 ∧
    blockLoop Sample.tiny Sample.auto sz (blockRange Sample.tiny) st0 = Some st1 ∧
    gpusWithSpace st1 = [g1; g2] ∧
    0 ≤ layerCount st1 ∧ Z.even (layerCount st1) = true ∧
    gpuAllocations st1 = [20; 20] ∧ memoryLayerOutput sz = 100 ∧
    ¬ 20 +u maxGraph sz +u memoryLayerOutput sz < FreeMemory (gs_g g1) ∧
    placeHead sz (length (gpusWithSpace st1)) st1 = Some st1.
Proof.
  intros gpus g1 g2. eexists _, _, _.
  split; [vm_compute; reflexivity|]. split; [vm_compute; reflexivity|].
  split; [vm_compute; reflexivity|]. split; [reflexivity|].
  split; [settle|]. split; [reflexivity|]. split; [reflexivity|].
  split; [reflexivity|]. split; [settle|].
  refine (head_loop_skips_the_second_device _ _ g1 g2 20 _ _ _ _ _).
  - reflexivity.
  - settle.
  - reflexivity.
  - reflexivity.
  - settle.
Defined.
